(** * A ledger of budget categories: the model and its properties

    Shallow embedding of [expense_report.py] (class [Category]), of
    [OperationWindow._add_category] from [expense_operations.py] and of the
    seed data of [fill_data.py].

    Python values are embedded as a small tagged union; [float] is IEEE-754
    binary64, computed with the executable specification of the Standard
    Library ([SpecFloat]); [int] is unbounded ([Z]).  Exceptions are results,
    and the objects that the methods mutate live in an explicit store, so that
    two references may name the same category. *)

From Stdlib Require Import ZArith Lia Bool Ascii String.
From Stdlib Require Import Floats.SpecFloat.
From stdpp Require Import gmap strings list pretty.

Local Open Scope Z_scope.

(* ===================================================================== *)
(** * Part 1: Python values and the builtins the ledger uses             *)
(* ===================================================================== *)

(** ** Exceptions and results *)

Inductive exn :=
  | Exception (msg : string)   (* raise Exception("...") *)
  | TypeError                  (* unsupported operand types *)
  | OverflowError.             (* int too large to convert to float *)

Inductive result (A : Type) :=
  | Returned (a : A)
  | Raised (e : exn).
Arguments Returned {A} a.
Arguments Raised {A} e.

Definition result_bind {A B} (r : result A) (k : A → result B) : result B :=
  match r with
  | Returned a => k a
  | Raised e => Raised e
  end.

#[global] Instance result_ret : MRet result := @Returned.
#[global] Instance result_mbind : MBind result := λ A B k r, result_bind r k.
#[global] Instance result_fmap : FMap result :=
  λ A B f r, result_bind r (λ a, Returned (f a)).

(** ** binary64 *)

Definition prec : Z := 53.
Definition emax : Z := 1024.

Definition fadd : spec_float → spec_float → spec_float := SFadd prec emax.
Definition fmul : spec_float → spec_float → spec_float := SFmul prec emax.
Definition fdiv : spec_float → spec_float → spec_float := SFdiv prec emax.

(** [float(z)] for an [int]: round to nearest, ties to even; an [int] beyond
    the range of a double raises OverflowError instead of giving [inf]. *)
Definition float_of_Z (z : Z) : result spec_float :=
  match binary_normalize prec emax z 0 false with
  | S754_infinity _ => Raised OverflowError
  | f => Returned f
  end.

(** The double denoted by the decimal literal [digits / 10^places]
    (correctly rounded: numerator and denominator are exact doubles for the
    literals used here). *)
Definition decimal (digits : Z) (places : nat) : spec_float :=
  fdiv (binary_normalize prec emax digits 0 false)
       (binary_normalize prec emax (10 ^ Z.of_nat places) 0 false).

(** ** Numbers: the [int] / [float] tower *)

Inductive num :=
  | NInt (z : Z)
  | NFloat (f : spec_float).

(** The extended real a number denotes: [m * 2^e], an infinity, or NaN. *)
Inductive xreal :=
  | XNaN
  | XInf (negative : bool)
  | XFin (m e : Z).

Definition xreal_of_float (f : spec_float) : xreal :=
  match f with
  | S754_zero _ => XFin 0 0
  | S754_infinity s => XInf s
  | S754_nan => XNaN
  | S754_finite s m e => XFin (cond_Zopp s (Zpos m)) e
  end.

Definition xreal_of (n : num) : xreal :=
  match n with
  | NInt z => XFin z 0
  | NFloat f => xreal_of_float f
  end.

Definition dyadic_compare (m1 e1 m2 e2 : Z) : comparison :=
  let e := Z.min e1 e2 in
  (m1 * 2 ^ (e1 - e)) ?= (m2 * 2 ^ (e2 - e)).

(** Comparison by value, as Python does it for int/int, float/float and the
    mixed cases (no conversion of the int, hence no loss); [None] when a NaN
    is involved, and then every ordering test is false. *)
Definition num_compare (a b : num) : option comparison :=
  match xreal_of a, xreal_of b with
  | XNaN, _ | _, XNaN => None
  | XInf s1, XInf s2 =>
      Some (match s1, s2 with
            | true, false => Lt
            | false, true => Gt
            | _, _ => Eq
            end)
  | XInf s, XFin _ _ => Some (if s then Lt else Gt)
  | XFin _ _, XInf s => Some (if s then Gt else Lt)
  | XFin m1 e1, XFin m2 e2 => Some (dyadic_compare m1 e1 m2 e2)
  end.

Definition num_ltb (a b : num) : bool :=
  match num_compare a b with Some Lt => true | _ => false end.
Definition num_gtb (a b : num) : bool :=
  match num_compare a b with Some Gt => true | _ => false end.
Definition num_geb (a b : num) : bool :=
  match num_compare a b with Some (Gt | Eq) => true | _ => false end.
Definition num_eqb (a b : num) : bool :=
  match num_compare a b with Some Eq => true | _ => false end.

Definition num_add (a b : num) : result num :=
  match a, b with
  | NInt x, NInt y => Returned (NInt (x + y))
  | NInt x, NFloat g => f ← float_of_Z x; Returned (NFloat (fadd f g))
  | NFloat f, NInt y => g ← float_of_Z y; Returned (NFloat (fadd f g))
  | NFloat f, NFloat g => Returned (NFloat (fadd f g))
  end.

Definition num_mul (a b : num) : result num :=
  match a, b with
  | NInt x, NInt y => Returned (NInt (x * y))
  | NInt x, NFloat g => f ← float_of_Z x; Returned (NFloat (fmul f g))
  | NFloat f, NInt y => g ← float_of_Z y; Returned (NFloat (fmul f g))
  | NFloat f, NFloat g => Returned (NFloat (fmul f g))
  end.

Definition num_abs (a : num) : num :=
  match a with
  | NInt x => NInt (Z.abs x)
  | NFloat f => NFloat (SFabs f)
  end.

(** Nearest integer to [n / 2^k], ties to even. *)
Definition round_half_even_shift (n k : Z) : Z :=
  let d := 2 ^ k in
  let q := n / d in
  let r := n mod d in
  match (2 * r) ?= d with
  | Lt => q
  | Gt => q + 1
  | Eq => if Z.even q then q else q + 1
  end.

(** [round(x, 2)] on a float: the decimal with two places nearest to the
    exact value of [x] (ties to even), read back as the nearest double.
    Non-finite values and doubles that are already integers are returned
    unchanged. *)
Definition float_round2 (f : spec_float) : spec_float :=
  match f with
  | S754_finite s m e =>
      if 0 <=? e then f
      else
        match round_half_even_shift (Zpos m * 100) (- e) with
        | Zpos n => fdiv (S754_finite s n 0) (S754_finite false 100 0)
        | _ => S754_zero s
        end
  | _ => f
  end.

Definition num_round2 (a : num) : num :=
  match a with
  | NInt x => NInt x
  | NFloat f => NFloat (float_round2 f)
  end.

(** ** Values *)

Inductive value :=
  | VNone
  | VBool (b : bool)
  | VInt (z : Z)
  | VFloat (f : spec_float)
  | VStr (s : string).

Inductive pytype := NoneType | Tbool | Tint | Tfloat | Tstr.

#[global] Instance pytype_eq_dec : EqDecision pytype.
Proof. solve_decision. Defined.

Definition type (v : value) : pytype :=
  match v with
  | VNone => NoneType
  | VBool _ => Tbool
  | VInt _ => Tint
  | VFloat _ => Tfloat
  | VStr _ => Tstr
  end.

(** A [bool] takes part in arithmetic and comparisons as the int 0 or 1. *)
Definition as_num (v : value) : option num :=
  match v with
  | VBool b => Some (NInt (Z.b2z b))
  | VInt z => Some (NInt z)
  | VFloat f => Some (NFloat f)
  | VNone | VStr _ => None
  end.

Definition of_num (n : num) : value :=
  match n with
  | NInt z => VInt z
  | NFloat f => VFloat f
  end.

(** At every call site of the ledger at least one operand of [<], [>], [+]
    and [*] is a number, so a non-number operand is a TypeError (the ordering
    and the concatenation of two strings are never reached). *)
Definition py_binop {A} (op : num → num → result A) (a b : value) : result A :=
  match as_num a, as_num b with
  | Some x, Some y => op x y
  | _, _ => Raised TypeError
  end.

Definition py_lt : value → value → result bool :=
  py_binop (λ x y, Returned (num_ltb x y)).
Definition py_gt : value → value → result bool :=
  py_binop (λ x y, Returned (num_gtb x y)).
Definition py_ge : value → value → result bool :=
  py_binop (λ x y, Returned (num_geb x y)).
(** [a == b]: by value between numbers, by content between strings. *)
Definition py_eq (a b : value) : bool :=
  match a, b with
  | VNone, VNone => true
  | VStr s, VStr t => bool_decide (s = t)
  | _, _ =>
      match as_num a, as_num b with
      | Some x, Some y => num_eqb x y
      | _, _ => false
      end
  end.

Definition py_add : value → value → result value :=
  py_binop (λ x y, of_num <$> num_add x y).
Definition py_mul : value → value → result value :=
  py_binop (λ x y, of_num <$> num_mul x y).

Definition py_abs (a : value) : result value :=
  match as_num a with
  | Some x => Returned (of_num (num_abs x))
  | None => Raised TypeError
  end.

(** [round(a, 2)] *)
Definition py_round2 (a : value) : result value :=
  match as_num a with
  | Some x => Returned (of_num (num_round2 x))
  | None => Raised TypeError
  end.

(** [str(z)] for an int. *)
Definition py_str_int (z : Z) : string := pretty z.


(** ** Strings: [str.lower] and [str.title] on ASCII text

    On a text of ASCII characters the cased characters are the letters A-Z
    and a-z, and every other character is uncased.  On other text Python
    follows the case mappings of Unicode, which are not computed here
    (['ß'.title()] is ['Ss']): what is stated of [lower] and [title] in
    general is stated for any two functions, see [_add_category]. *)

Definition is_upper (c : ascii) : bool :=
  let n := N_of_ascii c in ((65 <=? n) && (n <=? 90))%N.
Definition is_lower (c : ascii) : bool :=
  let n := N_of_ascii c in ((97 <=? n) && (n <=? 122))%N.
Definition to_lower (c : ascii) : ascii :=
  if is_upper c then ascii_of_N (N_of_ascii c + 32) else c.
Definition to_upper (c : ascii) : ascii :=
  if is_lower c then ascii_of_N (N_of_ascii c - 32) else c.

Fixpoint ascii_lower (s : string) : string :=
  match s with
  | EmptyString => EmptyString
  | String c s' => String (to_lower c) (ascii_lower s')
  end.

(** [ascii_title_from previous_is_cased s]: a cased character is upper-cased
    when it starts a word (the previous character is uncased) and
    lower-cased otherwise. *)
Fixpoint ascii_title_from (previous_is_cased : bool) (s : string) : string :=
  match s with
  | EmptyString => EmptyString
  | String c s' =>
      if is_lower c then
        String (if previous_is_cased then c else to_upper c)
               (ascii_title_from true s')
      else if is_upper c then
        String (if previous_is_cased then to_lower c else c)
               (ascii_title_from true s')
      else String c (ascii_title_from false s')
  end.

Definition ascii_title (s : string) : string := ascii_title_from false s.

(* ===================================================================== *)
(** * Part 2: expense_report.py, class Category                          *)
(* ===================================================================== *)

(** One entry of a wallet: the dict
    [{'amount': .., 'description': .., 'transfer': ..}]. *)
Record action := mkAction {
  amount : value;
  description : string;
  transfer : bool
}.

(** The fields of a [Category] instance. *)
Record Category := mkCategory {
  _category : string;
  _wallet : list action
}.

#[global] Instance Category_inhabited : Inhabited Category :=
  populate (mkCategory EmptyString []).

(** ** The store

    Category instances are objects: they are named by references and
    mutated in place.  The store maps each reference to the current fields of
    its object. *)

Definition loc := positive.

Abbreviation heap := (gmap loc Category).

(** What a caller may pass where a Category is expected: a reference to an
    instance of Category (the store holds nothing else), or some other
    value, for which [isinstance(target, Category)] is false. *)
Inductive object :=
  | Ref (l : loc)
  | Val (v : value).

(** ** Computations over the store

    A computation returns a value or raises, and in both cases leaves a
    store: what was mutated before an exception stays mutated. *)

Definition M (A : Type) : Type := heap → result A * heap.

Definition ret {A} (a : A) : M A := λ σ, (Returned a, σ).
Definition raise {A} (e : exn) : M A := λ σ, (Raised e, σ).
Definition bind {A B} (m : M A) (k : A → M B) : M B :=
  λ σ, match m σ with
       | (Returned a, σ') => k a σ'
       | (Raised e, σ') => (Raised e, σ')
       end.
Definition lift {A} (r : result A) : M A := λ σ, (r, σ).

#[global] Instance M_ret : MRet M := @ret.
#[global] Instance M_bind : MBind M := λ A B k m, bind m k.

(** The fields of the object at [l], and the store after an append to its
    wallet. *)
Definition wallet_at (σ : heap) (l : loc) : list action := _wallet (σ !!! l).
Definition category_at (σ : heap) (l : loc) : string := _category (σ !!! l).
Definition append_to (σ : heap) (l : loc) (a : action) : heap :=
  <[l := mkCategory (category_at σ l) (wallet_at σ l ++ [a])]> σ.

(** [self.wallet] and [self.category] (the read-only properties). *)
Definition wallet (self : loc) : M (list action) :=
  λ σ, (Returned (wallet_at σ self), σ).
Definition category (self : loc) : M string :=
  λ σ, (Returned (category_at σ self), σ).

(** [self.wallet.append(a)] *)
Definition wallet_append (self : loc) (a : action) : M unit :=
  λ σ, (Returned tt, append_to σ self a).

(** [Category(name)]: a new object with an empty wallet. *)
Definition new_Category (name : string) : M loc :=
  λ σ, let l := fresh (dom σ) in
       (Returned l, <[l := mkCategory name []]> σ).

(** A [for] loop over a list with an accumulator; an exception in the body
    ends the loop. *)
Fixpoint for_each {A S} (body : S → A → result S) (l : list A) (s : S)
  : result S :=
  match l with
  | [] => Returned s
  | x :: l' => s' ← body s x; for_each body l' s'
  end.

(** ** The methods *)

Definition deposit_error (name : string) : exn :=
  Exception ("Error: amount to deposit in " +:+ name +:+
             " category balance has to be a positive number").
Definition withdraw_error (name : string) : exn :=
  Exception ("Error: amount to withdraw from " +:+ name +:+
             " category balance has to be a negative number").
Definition send_error (name : string) : exn :=
  Exception ("Error: amount to send money from " +:+ name +:+
             " category balance has to be a number").
Definition no_category_error : exn :=
  Exception "Error: Category does not exist".

Definition is_number (value : value) : bool :=
  bool_decide (type value = Tint) || bool_decide (type value = Tfloat).

Definition add_revenue (self : loc) (amount : value) (description : string)
    (transfer : bool) : M unit :=
  reject ←
    (if negb (bool_decide (type amount = Tint))
        || negb (bool_decide (type amount = Tfloat))
     then lift (py_lt amount (VInt 0))
     else ret false);
  if (reject : bool) then
    name ← category self;
    raise (deposit_error name)
  else
    wallet_append self (mkAction amount description transfer).

Definition balance_of (w : list action) : result value :=
  for_each (λ balance action, py_add balance (amount action)) w (VInt 0).

Definition get_balance (self : loc) : M value :=
  w ← wallet self; lift (balance_of w).

Definition check_category_balance (self : loc) (amount : value) : M bool :=
  magnitude ← lift (py_abs amount);
  balance ← get_balance self;
  short ← lift (py_gt magnitude balance);
  if (short : bool) then ret false else ret true.

Definition add_expense (self : loc) (amount : value) (description : string)
    (transfer : bool) : M bool :=
  if negb (is_number amount) then
    name ← category self;
    raise (withdraw_error name)
  else
    enough ← check_category_balance self amount;
    if negb enough then ret false
    else
      positive ← lift (py_gt amount (VInt 0));
      amount ← (if (positive : bool) then lift (py_mul amount (VInt (-1)))
                else ret amount);
      wallet_append self (mkAction amount description transfer);;
      ret true.

Definition transfer_money (self : loc) (amount : value) (target : object)
  : M bool :=
  if negb (is_number amount) then
    name ← category self;
    raise (send_error name)
  else
    match target with
    | Val _ => raise no_category_error
    | Ref target =>
        target_name ← category target;
        sufficient_money ←
          add_expense self amount ("Send money to " +:+ target_name) true;
        if negb sufficient_money then ret false
        else
          name ← category self;
          add_revenue target amount ("Send money from " +:+ name) true;;
          ret true
    end.

Definition expense_total_of (w : list action) : result value :=
  total ←
    for_each
      (λ total action,
         if transfer action then Returned total
         else
           let amount := amount action in
           negative ← py_lt amount (VInt 0);
           if (negative : bool) then
             spent ← py_mul amount (VInt (-1)); py_add total spent
           else Returned total)
      w (VFloat (S754_zero false));
  total ← py_round2 total;
  match total with
  | VInt z => Returned (VStr (py_str_int z +:+ ".00"))
  | _ => Returned total
  end.

Definition get_expense_total (self : loc) : M value :=
  w ← wallet self; lift (expense_total_of w).

(* ===================================================================== *)
(** * Part 3: expense_operations.py, OperationWindow._add_category       *)
(* ===================================================================== *)

(** [key.lower()] and [category_name.title()] are the methods of [str],
    which follow Unicode; the method is modelled for any two functions in
    their place, so that what is proved of it holds of Python's.  On ASCII
    names they are [ascii_lower] and [ascii_title]. *)
Section Registry.
Variable lower : string → string.
Variable title : string → string.

(** [self._categories] is a dict from names to Category objects.  The loop
    over its keys only asks whether some key matches, so the order of the
    keys does not matter. *)
Definition name_taken (_categories : gmap string loc) (category_name : string)
  : bool :=
  existsb (λ key, bool_decide (lower key = lower category_name))
          (map_to_list _categories).*1.

(** Returns the result of the method together with the dict it leaves.
    The assignment [self._categories[key] = ...] replaces the entry of a
    key that is present. *)
Definition _add_category (_categories : gmap string loc)
    (category_name : string) : M (bool * gmap string loc) :=
  if name_taken _categories category_name then
    ret (false, _categories)
  else
    c ← new_Category (title category_name);
    ret (true, <[title category_name := c]> _categories).
End Registry.

(* ===================================================================== *)
(** * Part 4: fill_data.py                                               *)
(* ===================================================================== *)

Definition get_fill_data : M (list loc) :=
  income ← new_Category "Income";
  food ← new_Category "Food";
  clothing ← new_Category "Clothing";
  auto ← new_Category "Auto";
  grocery ← new_Category "Grocery";
  savings ← new_Category "Savings";
  add_revenue income (VInt 5000) "Salary from FIT" false;;
  add_expense income (VInt 488) "Rent" false;;
  transfer_money income (VInt 1000) (Ref food);;
  transfer_money income (VInt 500) (Ref clothing);;
  transfer_money income (VInt 200) (Ref auto);;
  transfer_money income (VInt 500) (Ref savings);;
  add_expense food (VFloat (decimal 1589 2)) "Mangestu Restaurant" false;;
  add_expense clothing (VFloat (decimal 2555 2)) "H&M" false;;
  add_expense clothing (VInt 100) "Macy's" false;;
  add_revenue auto (VInt 1000) "Sold my bike" false;;
  add_expense auto (VInt 15) "Tyre Change" false;;
  transfer_money food (VInt 50) (Ref grocery);;
  add_expense grocery (VFloat (decimal 3072 2)) "Chili's" false;;
  add_expense grocery (VFloat (decimal 1015 2)) "Walmart" false;;
  ret [income; food; clothing; grocery].


(* ===================================================================== *)
(** * More of the code: the rest of Category, and what the windows do
      with the ledger                                                     *)
(* ===================================================================== *)

(** ** Text builtins

    Text is ASCII here too. *)

Definition newline : string := String (ascii_of_nat 10) EmptyString.

Fixpoint repeat_char (c : ascii) (n : nat) : string :=
  match n with
  | O => EmptyString
  | S n' => String c (repeat_char c n')
  end.

(** [s[0:n]] *)
Definition slice_to (n : nat) (s : string) : string := String.substring 0 n s.

(** [s.ljust(width)] and [s.rjust(width)], padding with spaces. *)
Definition ljust (width : nat) (s : string) : string :=
  s +:+ repeat_char " " (width - String.length s).
Definition rjust (width : nat) (s : string) : string :=
  repeat_char " " (width - String.length s) +:+ s.

(** [s.center(width, fill)]: of an odd margin, the larger half goes to the
    right unless the width is odd too. *)
Definition center (width : nat) (fill : ascii) (s : string) : string :=
  let marg := (width - String.length s)%nat in
  let left := (marg / 2 + Nat.land (Nat.land marg width) 1)%nat in
  repeat_char fill left +:+ s +:+ repeat_char fill (marg - left).

(** [s.isdigit()] on a text of ASCII characters: not empty, and only the
    digits 0 to 9.  (On other texts Python also counts the digits of other
    scripts; they are outside this model.) *)
Definition is_digit (c : ascii) : bool :=
  let n := N_of_ascii c in ((48 <=? n) && (n <=? 57))%N.
Fixpoint all_digits (s : string) : bool :=
  match s with
  | EmptyString => true
  | String c s' => is_digit c && all_digits s'
  end.
Definition isdigit (s : string) : bool :=
  match s with
  | EmptyString => false
  | String _ _ => all_digits s
  end.

Fixpoint int_of_digits (acc : Z) (s : string) : Z :=
  match s with
  | EmptyString => acc
  | String c s' => int_of_digits (10 * acc + Z.of_N (N_of_ascii c - 48)) s'
  end.

(** [float(text)] on the texts the amount fields let through, the strings
    of digits: the nearest double, [inf] beyond the doubles (no exception).
    The rest of the grammar of [float] (signs, points, exponents, blanks) is
    not modelled: [None]. *)
Definition py_float_of_str (text : string) : option spec_float :=
  if isdigit text
  then Some (binary_normalize prec emax (int_of_digits 0 text) 0 false)
  else None.

(** The cents of [abs(x)]: the integer nearest to [abs(x) * 100], ties to
    even, computed on the exact value of the double. *)
Definition cents (f : spec_float) : Z :=
  match f with
  | S754_finite _ m e =>
      if 0 <=? e then Zpos m * 2 ^ e * 100
      else round_half_even_shift (Zpos m * 100) (- e)
  | _ => 0
  end.

Definition two_digits (c : Z) : string :=
  if c <? 10 then "0" +:+ pretty c else pretty c.

(** ["{:.2f}".format(x)] for a float. *)
Definition format_2f (f : spec_float) : string :=
  match f with
  | S754_nan => "nan"
  | S754_infinity s => if s then "-inf" else "inf"
  | S754_zero s | S754_finite s _ _ =>
      (if s then "-" else EmptyString)
      +:+ pretty (cents f / 100) +:+ "." +:+ two_digits (cents f mod 100)
  end.

(** ** expense_report.py: the setter of [category] and [__str__] *)

Definition name_error : exn :=
  Exception "Error: category's name is not a String".

(** [self.category = value] *)
Definition set_category (self : loc) (value : value) : M unit :=
  match value with
  | VStr name =>
      λ σ, (Returned tt, <[self := mkCategory name (wallet_at σ self)]> σ)
  | _ => raise name_error
  end.

(** [str(x)] of a float is the shortest decimal that reads back as [x];
    the printout is modelled for any such function. *)
Section Printout.
Variable float_repr : spec_float → string.

Definition py_str (v : value) : string :=
  match v with
  | VNone => "None"
  | VBool b => if b then "True" else "False"
  | VInt z => py_str_int z
  | VFloat f => float_repr f
  | VStr s => s
  end.

(** One pass of the loop of [__str__]: the text of one wallet entry. *)
Definition str_line (action : action) : result string :=
  let description := ljust 23 (slice_to 23 (description action)) in
  amount ← py_round2 (amount action);
  let amount :=
    match amount with
    | VInt z => VStr (py_str_int z +:+ ".00")
    | _ => amount
    end in
  Returned (description +:+ rjust 7 (py_str amount) +:+ newline).

Definition __str__ (self : loc) : M string :=
  name ← category self;
  let header := center 30 "*" name in
  w ← wallet self;
  body ← lift (for_each (λ body action,
                           line ← str_line action; Returned (body +:+ line))
                        w EmptyString);
  balance ← get_balance self;
  let footer := "Total: " +:+ py_str balance in
  ret (header +:+ newline +:+ body +:+ footer).
End Printout.

(** ** expense_manager_ui.py and expense_operations.py: the data the
       windows compute

    Here the order of the keys of [self._categories] shows (in the chart),
    so the dict is a list of pairs in insertion order with no key twice:
    assigning to a key that is present keeps its place. *)

Fixpoint od_set (d : list (string * loc)) (key : string) (v : loc)
  : list (string * loc) :=
  match d with
  | [] => [(key, v)]
  | (k, v') :: d' =>
      if decide (k = key) then (key, v) :: d' else (k, v') :: od_set d' key v
  end.

Fixpoint od_get (d : list (string * loc)) (key : string) : option loc :=
  match d with
  | [] => None
  | (k, v) :: d' => if decide (k = key) then Some v else od_get d' key
  end.

(** What a window can raise: the KeyError of a dict, the ValueError of
    [str] on an int that is too long, or what the ledger raised. *)
Inductive ui_exn :=
  | KeyError (key : value)
  | ValueError
  | Uncaught (e : exn).

Inductive outcome (A : Type) :=
  | Done (a : A)
  | Failed (e : ui_exn).
Arguments Done {A} a.
Arguments Failed {A} e.

(** [ExpenseManagerUI._createCategories] *)
Fixpoint _createCategories_loop (categories : list loc)
    (category_dict : list (string * loc)) (σ : heap) : list (string * loc) :=
  match categories with
  | [] => category_dict
  | c :: rest =>
      _createCategories_loop rest (od_set category_dict (category_at σ c) c) σ
  end.

Definition _createCategories (categories : list loc) (σ : heap)
  : list (string * loc) :=
  _createCategories_loop categories [] σ.

(** [str(z)] as CPython computes it by default since 3.11 (and the
    security releases of 3.7 to 3.10): a ValueError for an int of more
    than [sys.int_info.default_max_str_digits] digits. *)
Definition default_max_str_digits : Z := 4300.
Definition str_of_int (z : Z) : outcome string :=
  if Z.abs z <? 10 ^ default_max_str_digits then Done (py_str_int z)
  else Failed ValueError.

(** [ExpenseManagerUI._compute_category_total]; [get_balance] returns an
    int or a float, so the format meets no other type. *)
Definition _compute_category_total (_categories : list (string * loc))
    (category_name : string) (σ : heap) : outcome string :=
  match od_get _categories category_name with
  | None => Failed (KeyError (VStr category_name))
  | Some category_obj =>
      match fst (get_balance category_obj σ) with
      | Raised e => Failed (Uncaught e)
      | Returned (VInt total) =>
          match str_of_int total with
          | Done digits => Done (digits +:+ ".00")
          | Failed e => Failed e
          end
      | Returned (VFloat total) => Done (format_2f total)
      | Returned _ => Failed (Uncaught TypeError)
      end
  end.

(** [ExpenseManagerUI._get_color] *)
Inductive GlobalColor :=
  | red | green | blue | cyan | magenta | yellow | gray
  | darkRed | darkGreen | darkBlue | darkCyan | darkMagenta | darkYellow
  | darkGray.

Definition colors : list (Z * GlobalColor) :=
  [(0, red); (1, green); (2, blue); (3, cyan); (4, magenta); (5, yellow);
   (6, gray); (7, darkRed); (8, darkGreen); (9, darkBlue); (10, darkCyan);
   (11, darkMagenta); (12, darkYellow); (13, darkGray)].

Fixpoint colors_get (d : list (Z * GlobalColor)) (key : Z)
  : option GlobalColor :=
  match d with
  | [] => None
  | (k, c) :: d' => if decide (k = key) then Some c else colors_get d' key
  end.

Definition _get_color (random_val : Z) : outcome GlobalColor :=
  let key := random_val `mod` Z.of_nat (length colors) in
  match colors_get colors key with
  | Some c => Done c
  | None => Failed (KeyError (VInt key))
  end.

(** [ExpenseManagerUI._make_expense_chart]: the slices of the pie, each
    with its label, its value and the colour of its brush. *)
Record pie_slice := mkSlice {
  label : string;
  slice_value : value;
  brush : GlobalColor
}.

Fixpoint graph_data_of (_categories keys : list (string * loc)) (σ : heap)
  : outcome (list (string * value)) :=
  match keys with
  | [] => Done []
  | (category, _) :: rest =>
      if decide (category = "Income") then graph_data_of _categories rest σ
      else
        match od_get _categories category with
        | None => Failed (KeyError (VStr category))
        | Some cat_obj =>
            match total ← fst (get_expense_total cat_obj σ); py_round2 total
            with
            | Raised e => Failed (Uncaught e)
            | Returned v =>
                match graph_data_of _categories rest σ with
                | Done data => Done ((category, v) :: data)
                | Failed e => Failed e
                end
            end
        end
  end.

Fixpoint paint (index : Z) (data : list (string * value))
  : outcome (list pie_slice) :=
  match data with
  | [] => Done []
  | (name, v) :: rest =>
      match _get_color index with
      | Failed e => Failed e
      | Done c =>
          match paint (index + 1) rest with
          | Done slices => Done (mkSlice name v c :: slices)
          | Failed e => Failed e
          end
      end
  end.

Definition _make_expense_chart (_categories : list (string * loc))
    (σ : heap) : outcome (list pie_slice) :=
  match graph_data_of _categories _categories σ with
  | Done data => paint 0 data
  | Failed e => Failed e
  end.

(** [OperationWindow._convert_float], and the test that enables the submit
    button of an amount field. *)
Definition _convert_float (text : string) : option value :=
  f ← py_float_of_str text; Some (VFloat (float_round2 f)).

Definition submit_enabled (text : string) : bool :=
  bool_decide (0 < String.length text)%nat && isdigit text.

(* ===================================================================== *)
(** * Part 5: the vocabulary of the statements                           *)
(* ===================================================================== *)

(** ** Pieces of the methods *)

(** The test [abs(amount) > balance] of [check_category_balance], and the
    amount [add_expense] stores. *)
Definition short_of (amount balance : value) : result bool :=
  magnitude ← py_abs amount; py_gt magnitude balance.
Definition debit (amount : value) : result value :=
  positive ← py_gt amount (VInt 0);
  if (positive : bool) then py_mul amount (VInt (-1)) else Returned amount.

(** [float(-1)], the factor of [amount *= -1] on a float. *)
Definition minus_one : spec_float := S754_finite true 4503599627370496 (-52).

(** The number [add_expense] stores for the amount [y]. *)
Definition stored_num (y : num) : num :=
  match y with
  | NInt z => NInt (if 0 <? z then z * -1 else z)
  | NFloat f =>
      NFloat (if num_gtb (NFloat f) (NInt 0) then fmul f minus_one else f)
  end.

(** [-a], to state what a stored debit is equal to. *)
Definition num_neg (a : num) : num :=
  match a with
  | NInt x => NInt (- x)
  | NFloat f => NFloat (SFopp f)
  end.
Definition py_neg (a : value) : result value :=
  match as_num a with
  | Some x => Returned (of_num (num_neg x))
  | None => Raised TypeError
  end.


(** Some key of the dict equals [name] once both are lower-cased. *)
Definition clashes (lower : string → string) (_categories : gmap string loc)
    (name : string) : Prop :=
  ∃ key c, _categories !! key = Some c ∧ lower key = lower name.

(** ** Doubles *)

(** The floats of Python are the valid binary64 numbers; the finite ones
    exclude the infinities and NaN. *)
Definition is_double (f : spec_float) : Prop := valid_binary prec emax f = true.

Definition finite_double (f : spec_float) : bool :=
  valid_binary prec emax f
  && match f with
     | S754_zero _ | S754_finite _ _ _ => true
     | S754_infinity _ | S754_nan => false
     end.

Definition valid_amount (a : value) : Prop :=
  match a with
  | VFloat f => is_double f
  | _ => True
  end.

Definition finite_amount (a : value) : bool :=
  match a with
  | VFloat f => finite_double f
  | _ => true
  end.

Definition no_float (a : value) : bool :=
  match a with
  | VFloat _ => false
  | _ => true
  end.

(** A float that is not below zero, with a mantissa that fits the
    precision. *)
Definition nonneg_float (f : spec_float) : Prop :=
  match f with
  | S754_zero _ => True
  | S754_infinity s => s = false
  | S754_nan => False
  | S754_finite s m _ => s = false ∧ Zpos m < 2 ^ prec
  end.

Definition good_num (n : num) : Prop :=
  match n with
  | NInt z => 0 ≤ z
  | NFloat f => nonneg_float f
  end.

(** [q * 2^n] is [z] rounded to a multiple of [2^n], one way or the other,
    and [z] itself when [z] is such a multiple; when [n > 0], [z] has 53
    digits above the [n] that are dropped. *)
Definition rounds (z q n : Z) : Prop :=
  0 ≤ n
  ∧ z / 2 ^ n ≤ q ≤ z / 2 ^ n + 1
  ∧ (z mod 2 ^ n = 0 → q = z / 2 ^ n)
  ∧ (0 < n → 2 ^ 52 ≤ z / 2 ^ n).

(** ** Sequences of ledger operations *)

Inductive call :=
  | AddRevenue (self : loc) (amount : value) (description : string)
               (transfer : bool)
  | AddExpense (self : loc) (amount : value) (description : string)
               (transfer : bool)
  | TransferMoney (self : loc) (amount : value) (target : object).

Definition call_amount (c : call) : value :=
  match c with
  | AddRevenue _ a _ _ | AddExpense _ a _ _ | TransferMoney _ a _ => a
  end.

(** The store a call leaves, whether it returns or raises. *)
Definition run_call (c : call) (σ : heap) : heap :=
  match c with
  | AddRevenue self a d t => snd (add_revenue self a d t σ)
  | AddExpense self a d t => snd (add_expense self a d t σ)
  | TransferMoney self a target => snd (transfer_money self a target σ)
  end.

Definition run_calls (cs : list call) (σ : heap) : heap :=
  fold_left (λ σ c, run_call c σ) cs σ.


(** With int amounts only, the balance is an int at or above zero (no
    conversion to float, hence no overflow). *)
Definition int_balance (w : list action) : Prop :=
  ∃ z, balance_of w = Returned (VInt z) ∧ 0 ≤ z.

(** A property of wallets holds of every category of the store. *)
Definition holds_everywhere (P : list action → Prop) (σ : heap) : Prop :=
  ∀ l, P (wallet_at σ l).

(** ** Further vocabulary *)

(** Every entry of the wallet is a number (or a bool), finite if a float. *)
Definition finite_entries (w : list action) : Prop :=
  Forall (λ e, finite_amount (amount e) = true
               ∧ ∃ y, as_num (amount e) = Some y) w.

(** No two keys of the dict are equal up to case. *)
Definition case_unique (lower : string → string)
    (_categories : gmap string loc) : Prop :=
  ∀ k1 k2, is_Some (_categories !! k1) → is_Some (_categories !! k2) →
           lower k1 = lower k2 → k1 = k2.

(* ===================================================================== *)
(** * Part 6: facts about binary64                                       *)
(* ===================================================================== *)

(** The literals and roundings below are the ones CPython prints:
    [(30.72).hex()] is [0x1.eb851eb851eb8p+4], [round(2.675, 2)] is 2.67,
    [round(0.125, 2)] is 0.12, [round(-0.001, 2)] is -0.0, and
    [float(2**1024 - 2**970)] overflows while the int before it does not. *)

Example literal_30_72 :
  decimal 3072 2 = S754_finite false 8646911284551352 (-48).
Proof. vm_compute. reflexivity. Qed.

Example round_2_675 : float_round2 (decimal 2675 3) = decimal 267 2.
Proof. vm_compute. reflexivity. Qed.

Example round_0_125 : float_round2 (decimal 125 3) = decimal 12 2.
Proof. vm_compute. reflexivity. Qed.

Example round_minus_0_001 : float_round2 (decimal (-1) 3) = S754_zero true.
Proof. vm_compute. reflexivity. Qed.

Example float_of_large_int :
  float_of_Z (2 ^ 1024 - 2 ^ 970) = Raised OverflowError
  ∧ float_of_Z (2 ^ 1024 - 2 ^ 970 - 1)
    = Returned (S754_finite false 9007199254740991 971).
Proof. split; vm_compute; reflexivity. Qed.

(** ** Digits and shifts *)

Lemma digits2_pos_bounds p :
  2 ^ (Zpos (digits2_pos p) - 1) ≤ Zpos p < 2 ^ Zpos (digits2_pos p).
Proof.
  induction p as [p IH|p IH|]; simpl digits2_pos.
  - rewrite Pos2Z.inj_succ.
    replace (Z.succ (Zpos (digits2_pos p)) - 1) with (Z.succ (Zpos (digits2_pos p) - 1)) by lia.
    rewrite !Z.pow_succ_r by lia. lia.
  - rewrite Pos2Z.inj_succ.
    replace (Z.succ (Zpos (digits2_pos p)) - 1) with (Z.succ (Zpos (digits2_pos p) - 1)) by lia.
    rewrite !Z.pow_succ_r by lia. lia.
  - simpl. lia.
Qed.

Lemma iter_pos_nat {A} (f : A → A) p x :
  SpecFloat.iter_pos f p x = Nat.iter (Pos.to_nat p) f x.
Proof.
  revert x. induction p as [p IH|p IH|]; intros x; cbn [SpecFloat.iter_pos].
  - rewrite !IH, Pos2Nat.inj_xI.
    replace (S (2 * Pos.to_nat p)) with (Pos.to_nat p + S (Pos.to_nat p))%nat by lia.
    rewrite Nat.iter_add. f_equal. by rewrite Nat.iter_succ_r.
  - rewrite !IH, Pos2Nat.inj_xO.
    replace (2 * Pos.to_nat p)%nat with (Pos.to_nat p + Pos.to_nat p)%nat by lia.
    by rewrite Nat.iter_add.
  - reflexivity.
Qed.

(** Shifting a record right: the mantissa is halved each time, and an exact
    record whose mantissa is a multiple of the power of two stays exact. *)
Lemma shr_1_m mrs : 0 ≤ shr_m mrs → shr_m (shr_1 mrs) = shr_m mrs / 2.
Proof.
  destruct mrs as [m r s]; cbn [shr_m]. intros Hm.
  destruct m as [|[p|p|]|p]; cbn [shr_1 shr_m]; try done; try lia.
  - apply Z.div_unique with 1; lia.
  - apply Z.div_unique with 0; lia.
Qed.

Lemma shr_1_exact mrs :
  0 ≤ shr_m mrs → shr_m mrs mod 2 = 0 → shr_r mrs = false → shr_s mrs = false →
  shr_r (shr_1 mrs) = false ∧ shr_s (shr_1 mrs) = false.
Proof.
  destruct mrs as [m r s]; cbn [shr_m shr_r shr_s]. intros Hm He -> ->.
  destruct m as [|[p|p|]|p]; cbn [shr_1 shr_r shr_s]; try done; try lia.
  exfalso. rewrite Pos2Z.inj_xI in He.
  rewrite Z.add_comm, Z.mul_comm, Z.mod_add in He by lia. done.
Qed.

Lemma shr_iter_spec n mrs :
  0 ≤ shr_m mrs →
  let mrs' := Nat.iter n shr_1 mrs in
  shr_m mrs' = shr_m mrs / 2 ^ Z.of_nat n
  ∧ (shr_m mrs mod 2 ^ Z.of_nat n = 0 → shr_r mrs = false → shr_s mrs = false →
     shr_r mrs' = false ∧ shr_s mrs' = false).
Proof.
  intros Hm. induction n as [|n [IHm IHe]]; simpl Nat.iter.
  - simpl. rewrite Z.div_1_r. done.
  - cbv zeta in *. 
    assert (Hpos : 0 < 2 ^ Z.of_nat n) by (apply Z.pow_pos_nonneg; lia).
    assert (H0 : 0 ≤ shr_m (Nat.iter n shr_1 mrs)).
    { rewrite IHm. apply Z.div_pos; lia. }
    rewrite Nat2Z.inj_succ, Z.pow_succ_r by lia.
    split.
    + rewrite shr_1_m, IHm by done. rewrite Z.div_div by lia. f_equal. lia.
    + intros He Hr Hs.
      assert (He' : shr_m mrs mod 2 ^ Z.of_nat n = 0).
      { apply Z.mod_divide in He; [|lia]. apply Z.mod_divide; [lia|].
        destruct He as [k ->]. exists (k * 2). lia. }
      destruct (IHe He' Hr Hs) as [Hr' Hs'].
      apply shr_1_exact; try done.
      rewrite IHm. apply Z.mod_divide in He; [|lia]. destruct He as [k ->].
      replace (k * (2 * 2 ^ Z.of_nat n)) with ((k * 2) * 2 ^ Z.of_nat n) by lia.
      rewrite Z.div_mul by lia. by rewrite Z.mod_mul.
Qed.

Lemma Zdigits2_bounds m :
  0 < m → 0 < Zdigits2 m ∧ 2 ^ (Zdigits2 m - 1) ≤ m < 2 ^ Zdigits2 m.
Proof.
  destruct m as [|p|p]; try lia. intros _. simpl Zdigits2.
  split; [lia | apply digits2_pos_bounds].
Qed.

Lemma Zdigits2_unique m d :
  2 ^ (d - 1) ≤ m < 2 ^ d → 0 < m → Zdigits2 m = d.
Proof.
  intros [Hlo Hhi] Hm.
  destruct (Zdigits2_bounds m Hm) as (Hd & Hlo' & Hhi').
  assert (0 < d).
  { destruct (Z.lt_trichotomy d 0) as [Hneg|[->|]]; [|simpl in Hhi; lia|done].
    rewrite Z.pow_neg_r in Hhi by done. lia. }
  assert (Zdigits2 m - 1 < d).
  { apply (Z.pow_lt_mono_r_iff 2); lia. }
  assert (d - 1 < Zdigits2 m).
  { apply (Z.pow_lt_mono_r_iff 2); lia. }
  lia.
Qed.

Lemma shr_m_of_loc m l : shr_m (shr_record_of_loc m l) = m.
Proof. by destruct l as [|[]]. Qed.

Lemma shr_fexp_spec m e l mrs' e' :
  0 ≤ m →
  shr_fexp prec emax m e l = (mrs', e') →
  let n := Z.max 0 (fexp prec emax (Zdigits2 m + e) - e) in
  shr_m mrs' = m / 2 ^ n ∧ e' = e + n
  ∧ (l = loc_Exact → m mod 2 ^ n = 0 → loc_of_shr_record mrs' = loc_Exact).
Proof.
  intros Hm. unfold shr_fexp, shr.
  destruct (fexp prec emax (Zdigits2 m + e) - e) as [|p|p] eqn:Hn;
    intros [= <- <-]; cbv zeta.
  - simpl Z.max. rewrite shr_m_of_loc, Z.div_1_r.
    repeat split; [lia|]. by intros ->.
  - rewrite Z.max_r by lia. rewrite iter_pos_nat.
    destruct (shr_iter_spec (Pos.to_nat p) (shr_record_of_loc m l)) as [Hv He].
    { by rewrite shr_m_of_loc. }
    rewrite positive_nat_Z, shr_m_of_loc in Hv, He.
    repeat split; [done|]. intros -> Hmod.
    destruct (He Hmod eq_refl eq_refl) as [Hr Hs].
    destruct (Nat.iter _ _ _) as [m1 r1 s1]. simpl in *. by subst.
  - rewrite Z.max_l by lia. rewrite shr_m_of_loc, Z.div_1_r.
    repeat split; [lia|]. by intros ->.
Qed.

Lemma rne_bounds m l :
  m ≤ round_nearest_even m l ≤ m + 1
  ∧ (l = loc_Exact → round_nearest_even m l = m).
Proof.
  destruct l as [|[]]; simpl; try destruct (Z.even m); split; try done; lia.
Qed.


Lemma binary_round_aux_nonneg mx ex lx :
  0 ≤ mx → nonneg_float (binary_round_aux prec emax false mx ex lx).
Proof.
  intros Hmx. unfold binary_round_aux.
  destruct (shr_fexp prec emax mx ex lx) as [mrs' e'] eqn:H1.
  destruct (shr_fexp_spec _ _ _ _ _ Hmx H1) as (Hm' & He' & _).
  set (n := Z.max 0 (fexp prec emax (Zdigits2 mx + ex) - ex)) in *.
  assert (Hn : 0 ≤ n) by lia.
  assert (H2n : 0 < 2 ^ n) by (by apply Z.pow_pos_nonneg).
  assert (Hlt : 0 ≤ shr_m mrs' < 2 ^ prec).
  { rewrite Hm'. split; [apply Z.div_pos; lia|].
    destruct (Z.eq_dec mx 0) as [->|Hne]; [by rewrite Z.div_0_l by lia|].
    destruct (Zdigits2_bounds mx) as (Hd & _ & Hhi); [lia|].
    apply Z.div_lt_upper_bound; [done|].
    rewrite <- Z.pow_add_r by (unfold prec; lia).
    eapply Z.lt_le_trans; [exact Hhi|].
    apply Z.pow_le_mono_r; [lia|]. unfold n, fexp, emin, prec, emax. lia. }
  set (m1 := round_nearest_even (shr_m mrs') (loc_of_shr_record mrs')).
  destruct (rne_bounds (shr_m mrs') (loc_of_shr_record mrs')) as [Hm1 _].
  fold m1 in Hm1.
  assert (Hm1pos : 0 ≤ m1) by lia.
  destruct (shr_fexp prec emax m1 e' loc_Exact) as [mrs'' e''] eqn:H2.
  destruct (shr_fexp_spec _ _ _ _ _ Hm1pos H2) as (Hm'' & He'' & _).
  set (n1 := Z.max 0 (fexp prec emax (Zdigits2 m1 + e') - e')) in *.
  assert (H2n1 : 0 < 2 ^ n1) by (apply Z.pow_pos_nonneg; lia).
  assert (Hlt2 : 0 ≤ shr_m mrs'' < 2 ^ prec).
  { rewrite Hm''. split; [apply Z.div_pos; lia|].
    destruct (Z.eq_dec m1 (2 ^ prec)) as [Heq|Hne].
    - assert (Hd1 : Zdigits2 m1 = prec + 1).
      { apply Zdigits2_unique; rewrite Heq; [|by vm_compute].
        replace (prec + 1 - 1) with prec by lia. by vm_compute. }
      assert (1 ≤ n1) by (unfold n1, fexp, emin; rewrite Hd1; unfold prec, emax; lia).
      apply Z.div_lt_upper_bound; [done|].
      rewrite Heq. 
      assert (2 ^ 1 ≤ 2 ^ n1) by (apply Z.pow_le_mono_r; lia).
      assert (0 < 2 ^ prec) by (by vm_compute). nia.
    - apply Z.le_lt_trans with m1; [|lia].
      apply Z.div_le_upper_bound; [done|]. nia. }
  destruct (shr_m mrs'') as [|p|p]; simpl; [done| |lia].
  destruct (e'' <=? emax - prec); simpl; [split; [done|lia]|done].
Qed.


Lemma Zdigits2_shift m k :
  0 < m → 0 ≤ k → Zdigits2 (m * 2 ^ k) = Zdigits2 m + k.
Proof.
  intros Hm Hk. destruct (Zdigits2_bounds m Hm) as (Hd & Hlo & Hhi).
  assert (0 < 2 ^ k) by (by apply Z.pow_pos_nonneg).
  apply Zdigits2_unique; [|nia].
  replace (Zdigits2 m + k - 1) with (Zdigits2 m - 1 + k) by lia.
  rewrite !Z.pow_add_r by lia. nia.
Qed.

(** Rounding a mantissa that is a canonical one shifted left gives the
    canonical float back: nothing is lost. *)
Lemma binary_round_aux_exact s m e k :
  canonical_mantissa prec emax m e = true →
  e ≤ emax - prec → 0 ≤ k →
  binary_round_aux prec emax s (Zpos m * 2 ^ k) (e - k) loc_Exact
  = S754_finite s m e.
Proof.
  intros Hcan Hem Hk. unfold canonical_mantissa in Hcan.
  apply Z.eqb_eq in Hcan.
  assert (H2k : 0 < 2 ^ k) by (by apply Z.pow_pos_nonneg).
  unfold binary_round_aux.
  destruct (shr_fexp prec emax (Zpos m * 2 ^ k) (e - k) loc_Exact)
    as [mrs' e'] eqn:H1.
  assert (Hpos : 0 ≤ Zpos m * 2 ^ k) by lia.
  destruct (shr_fexp_spec _ _ _ _ _ Hpos H1) as (Hm' & He' & Hl').
  rewrite Zdigits2_shift in Hm', He', Hl' by lia.
  replace (Zdigits2 (Zpos m) + k + (e - k)) with (Zpos (digits2_pos m) + e)
    in Hm', He', Hl' by (simpl Zdigits2; lia).
  rewrite Hcan in Hm', He', Hl'.
  replace (Z.max 0 (e - (e - k))) with k in Hm', He', Hl' by lia.
  rewrite Z.div_mul in Hm' by lia.
  rewrite Hl' by (done || apply Z.mod_mul; lia).
  rewrite Hm'. cbn [round_nearest_even].
  replace e' with e by lia.
  destruct (shr_fexp prec emax (Zpos m) e loc_Exact) as [mrs'' e''] eqn:H2.
  destruct (shr_fexp_spec _ _ _ _ _ (Pos2Z.is_nonneg m) H2)
    as (Hm'' & He'' & _).
  simpl Zdigits2 in Hm'', He''. rewrite Hcan in Hm'', He''.
  replace (Z.max 0 (e - e)) with 0 in Hm'', He'' by lia.
  rewrite Z.div_1_r in Hm''. rewrite Hm''.
  replace e'' with e by lia.
  by apply Z.leb_le in Hem as ->.
Qed.


Lemma is_double_finite s m e :
  is_double (S754_finite s m e) →
  canonical_mantissa prec emax m e = true ∧ e ≤ emax - prec
  ∧ Zpos m < 2 ^ prec.
Proof.
  unfold is_double; simpl. unfold bounded. intros [Hc He]%andb_true_iff.
  apply Z.leb_le in He. repeat split; try done.
  unfold canonical_mantissa in Hc. apply Z.eqb_eq in Hc.
  destruct (digits2_pos_bounds m) as [_ Hhi].
  eapply Z.lt_le_trans; [exact Hhi|].
  apply Z.pow_le_mono_r; [lia|]. revert Hc. unfold fexp, emin, prec, emax. lia.
Qed.

Lemma fmul_minus_one f : is_double f → fmul f minus_one = SFopp f.
Proof.
  destruct f as [s|s| |s m e]; intros Hv; unfold fmul, minus_one;
    cbn [SFmul SFopp]; rewrite ?xorb_true_r; try done.
  destruct (is_double_finite _ _ _ Hv) as (Hc & He & _).
  change (e + -52) with (e - 52).
  rewrite Pos2Z.inj_mul.
  change (Zpos 4503599627370496) with (2 ^ 52).
  by apply binary_round_aux_exact.
Qed.

(** The sum of two finite floats rounds the exact sum of their aligned
    mantissas. *)
Lemma pos_iter_xO m d : Zpos (Pos.iter xO m d) = Zpos m * 2 ^ Zpos d.
Proof.
  revert m. induction d as [|d IH] using Pos.peano_ind; intros m.
  - simpl. lia.
  - rewrite Pos.iter_succ, Pos2Z.inj_xO, IH, Pos2Z.inj_succ.
    rewrite Z.pow_succ_r by lia. lia.
Qed.

Lemma shl_align_fst m e ez :
  ez ≤ e → Zpos (fst (shl_align m e ez)) = Zpos m * 2 ^ (e - ez).
Proof.
  intros Hle. unfold shl_align.
  destruct (ez - e) as [|d|d] eqn:Hd; simpl fst.
  - replace (e - ez) with 0 by lia. simpl. lia.
  - lia.
  - rewrite pos_iter_xO. f_equal. f_equal. lia.
Qed.

Lemma shl_align_snd m e ez :
  ez ≤ e → snd (shl_align m e ez) = ez.
Proof.
  intros Hle. unfold shl_align.
  destruct (ez - e) as [|d|d] eqn:Hd; simpl snd; lia.
Qed.

Lemma fadd_finite s1 m1 e1 s2 m2 e2 :
  fadd (S754_finite s1 m1 e1) (S754_finite s2 m2 e2)
  = let ez := Z.min e1 e2 in
    binary_normalize prec emax
      (cond_Zopp s1 (Zpos m1 * 2 ^ (e1 - ez))
       + cond_Zopp s2 (Zpos m2 * 2 ^ (e2 - ez))) ez false.
Proof.
  unfold fadd, SFadd. cbv zeta.
  by rewrite !shl_align_fst by lia.
Qed.

Lemma binary_round_nonneg m e :
  nonneg_float (binary_round prec emax false m e).
Proof.
  unfold binary_round. destruct (shl_align _ _ _) as [mz ez].
  apply binary_round_aux_nonneg. lia.
Qed.

Lemma binary_normalize_nonneg M e :
  0 ≤ M → nonneg_float (binary_normalize prec emax M e false).
Proof.
  destruct M as [|p|p]; simpl; [done| |lia].
  intros _. apply binary_round_nonneg.
Qed.

(** ** Comparing dyadic numbers *)

Lemma dyadic_compare_scale e0 m1 e1 m2 e2 :
  e0 ≤ e1 → e0 ≤ e2 →
  dyadic_compare m1 e1 m2 e2 = (m1 * 2 ^ (e1 - e0) ?= m2 * 2 ^ (e2 - e0)).
Proof.
  intros H1 H2. unfold dyadic_compare. cbv zeta.
  assert (∃ e, e = Z.min e1 e2 ∧ e0 ≤ e ∧ e ≤ e1 ∧ e ≤ e2)
    as (e & <- & ? & ? & ?) by (eexists; split; [done|lia]).
  assert (Hp : 0 < 2 ^ (e - e0)) by (apply Z.pow_pos_nonneg; lia).
  replace (e1 - e0) with ((e1 - e) + (e - e0)) by lia.
  replace (e2 - e0) with ((e2 - e) + (e - e0)) by lia.
  rewrite !Z.pow_add_r, !Z.mul_assoc by lia.
  apply Zmult_compare_compat_r. lia.
Qed.





(** ** [float(z)] *)



Lemma binary_round_pos_spec p :
  match binary_round prec emax false p 0 with
  | S754_finite s mg eg =>
      s = false ∧ Zpos mg < 2 ^ prec
      ∧ ∃ q n, rounds (Zpos p) q n ∧ dyadic_compare (Zpos mg) eg q n = Eq
  | S754_infinity s => s = false
  | _ => False
  end.
Proof.
  unfold binary_round.
  destruct (digits2_pos_bounds p) as [Hlo Hhi].
  set (d := Zpos (digits2_pos p)) in *.
  assert (Hfexp : fexp prec emax (d + 0) = d - prec).
  { unfold fexp, emin, prec, emax, d. lia. }
  rewrite Hfexp.
  destruct (Z.le_gt_cases d prec) as [Hsmall|Hbig].
  - (* at most 53 digits: the conversion is exact *)
    pose proof (shl_align_fst p 0 (d - prec) ltac:(lia)) as Hm.
    pose proof (shl_align_snd p 0 (d - prec) ltac:(lia)) as He.
    destruct (shl_align p 0 (d - prec)) as [mz ez]. simpl in Hm, He. subst ez.
    replace (0 - (d - prec)) with (prec - d) in Hm by lia.
    assert (Hdig : Zpos (digits2_pos mz) = prec).
    { change (Zdigits2 (Zpos mz) = prec). rewrite Hm, Zdigits2_shift by lia.
      simpl Zdigits2. fold d. lia. }
    pose proof (binary_round_aux_exact false mz (d - prec) 0) as Hex.
    rewrite Z.pow_0_r, Z.mul_1_r, Z.sub_0_r in Hex. rewrite Hex.
    + split; [done|]. split.
      * destruct (digits2_pos_bounds mz) as [_ Hhi']. by rewrite Hdig in Hhi'.
      * exists (Zpos p), 0. split.
        -- unfold rounds. rewrite Z.pow_0_r, Z.div_1_r, Z.mod_1_r. lia.
        -- rewrite (dyadic_compare_scale (d - prec)) by (unfold prec in *; lia).
           rewrite Z.sub_diag, Z.pow_0_r, Z.mul_1_r, Hm.
           replace (0 - (d - prec)) with (prec - d) by lia.
           apply Z.compare_refl.
    + unfold canonical_mantissa. rewrite Hdig. apply Z.eqb_eq.
      unfold fexp, emin, prec, emax, d. lia.
    + unfold prec, emax in *. lia.
    + lia.
  - (* more than 53 digits: the low [d - 53] bits are rounded away *)
    assert (Hal : shl_align p 0 (d - prec) = (p, 0)).
    { unfold shl_align. destruct (d - prec - 0) eqn:E; try done. lia. }
    rewrite Hal. unfold binary_round_aux.
    destruct (shr_fexp prec emax (Zpos p) 0 loc_Exact) as [mrs' e'] eqn:H1.
    destruct (shr_fexp_spec _ _ _ _ _ (Pos2Z.is_nonneg p) H1)
      as (Hm' & He' & Hl').
    simpl Zdigits2 in Hm', He', Hl'. fold d in Hm', He', Hl'.
    rewrite Hfexp in Hm', He', Hl'.
    assert (∃ n, n = d - prec ∧ 0 < n) as (n & Hn & Hnpos)
      by (eexists; split; [done|lia]).
    replace (Z.max 0 (d - prec - 0)) with n in Hm', He', Hl' by lia.
    rewrite Z.add_0_l in He'. subst e'.
    assert (H2n : 0 < 2 ^ n) by (apply Z.pow_pos_nonneg; lia).
    assert (HQ : 2 ^ 52 ≤ Zpos p / 2 ^ n < 2 ^ prec).
    { split.
      - apply Z.div_le_lower_bound; [done|].
        rewrite <- Z.pow_add_r by lia.
        replace (n + 52) with (d - 1) by (unfold prec in *; lia). done.
      - apply Z.div_lt_upper_bound; [done|].
        rewrite <- Z.pow_add_r by (unfold prec; lia).
        replace (n + prec) with d by lia. done. }
    set (m1 := round_nearest_even (shr_m mrs') (loc_of_shr_record mrs')).
    destruct (rne_bounds (shr_m mrs') (loc_of_shr_record mrs')) as [Hm1 Hm1e].
    fold m1 in Hm1, Hm1e. rewrite Hm' in Hm1, Hm1e.
    assert (Hrounds : rounds (Zpos p) m1 n).
    { unfold rounds. repeat split; try lia.
      intros Hmod. rewrite Hm1e; [done|]. by apply Hl'. }
    assert (Hm1pos : 0 ≤ m1) by lia.
    destruct (shr_fexp prec emax m1 n loc_Exact) as [mrs'' e''] eqn:H2.
    destruct (shr_fexp_spec _ _ _ _ _ Hm1pos H2) as (Hm'' & He'' & _).
    destruct (Z.eq_dec m1 (2 ^ prec)) as [Heq|Hne].
    + assert (Hd1 : Zdigits2 m1 = prec + 1).
      { apply Zdigits2_unique; rewrite Heq; [|by vm_compute].
        replace (prec + 1 - 1) with prec by lia. by vm_compute. }
      rewrite Hd1 in Hm'', He''.
      replace (Z.max 0 (fexp prec emax (prec + 1 + n) - n)) with 1
        in Hm'', He'' by (unfold fexp, emin, prec, emax in *; lia).
      rewrite Heq in Hm''. change (2 ^ prec / 2 ^ 1) with (2 ^ 52) in Hm''.
      rewrite Hm''. change (2 ^ 52) with (Zpos 4503599627370496).
      cbv iota beta.
      destruct (e'' <=? emax - prec); [|done].
      split; [done|]. split; [by vm_compute|].
      exists m1, n. split; [done|].
      rewrite (dyadic_compare_scale n) by lia.
      rewrite He'', Heq, Z.sub_diag, Z.pow_0_r, Z.mul_1_r.
      replace (n + 1 - n) with 1 by lia. by vm_compute.
    + assert (Hd1 : Zdigits2 m1 = prec).
      { apply Zdigits2_unique; [|lia]. unfold prec in *. simpl Z.sub. lia. }
      rewrite Hd1 in Hm'', He''.
      replace (Z.max 0 (fexp prec emax (prec + n) - n)) with 0
        in Hm'', He'' by (unfold fexp, emin, prec, emax in *; lia).
      rewrite Z.pow_0_r, Z.div_1_r in Hm''. rewrite Hm''.
      destruct m1 as [|p1|p1]; [lia| |lia].
      destruct (e'' <=? emax - prec); [|done].
      split; [done|]. split; [lia|].
      exists (Zpos p1), n. split; [done|].
      rewrite He'', Z.add_0_r.
      rewrite (dyadic_compare_scale n) by lia. apply Z.compare_refl.
Qed.

Lemma float_of_Z_pos z g :
  0 < z → float_of_Z z = Returned g →
  ∃ mg eg q n,
    g = S754_finite false mg eg ∧ Zpos mg < 2 ^ prec
    ∧ rounds z q n ∧ dyadic_compare (Zpos mg) eg q n = Eq.
Proof.
  destruct z as [|p|p]; try lia. intros _.
  unfold float_of_Z. simpl binary_normalize.
  pose proof (binary_round_pos_spec p) as H.
  destruct (binary_round prec emax false p 0) as [s|s| |s mg eg];
    try done. intros [= <-].
  destruct H as (-> & Hlt & q & n & Hr & Hc). by exists mg, eg, q, n.
Qed.

(** ** Comparing ints *)

Lemma num_compare_int x y : num_compare (NInt x) (NInt y) = Some (x ?= y).
Proof.
  unfold num_compare, dyadic_compare; simpl.
  by rewrite !Z.mul_1_r.
Qed.

Lemma num_gtb_int x y : num_gtb (NInt x) (NInt y) = (y <? x).
Proof.
  unfold num_gtb. rewrite num_compare_int, Z.ltb_antisym, Z.leb_compare.
  by destruct (x ?= y).
Qed.

Lemma num_ltb_int x y : num_ltb (NInt x) (NInt y) = (x <? y).
Proof. unfold num_ltb. by rewrite num_compare_int. Qed.

(** ** Sums that stay at or above zero *)



Lemma dyadic_compare_0_r m e e0 : dyadic_compare m e 0 e0 = (m ?= 0).
Proof.
  assert (∃ k, k ≤ e ∧ k ≤ e0) as (k & ? & ?) by (exists (Z.min e e0); lia).
  rewrite (dyadic_compare_scale k) by done.
  assert (0 < 2 ^ (e - k)) by (apply Z.pow_pos_nonneg; lia).
  rewrite Z.mul_0_l. destruct (Z.compare_spec m 0) as [->| |].
  - done.
  - apply Z.compare_lt_iff. nia.
  - apply Z.compare_gt_iff. nia.
Qed.


Lemma fadd_nonneg f g :
  nonneg_float f → nonneg_float g → nonneg_float (fadd f g).
Proof.
  destruct f as [s1|s1| |s1 m1 e1], g as [s2|s2| |s2 m2 e2]; try done.
  - intros _ _. by destruct s1, s2.
  - intros -> ->. done.
  - intros [-> H1] [-> H2]. rewrite fadd_finite. cbv zeta.
    apply binary_normalize_nonneg. simpl cond_Zopp.
    assert (0 < 2 ^ (e1 - Z.min e1 e2)) by (apply Z.pow_pos_nonneg; lia).
    assert (0 < 2 ^ (e2 - Z.min e1 e2)) by (apply Z.pow_pos_nonneg; lia).
    nia.
Qed.


Lemma float_of_Z_nonneg z g :
  0 ≤ z → float_of_Z z = Returned g →
  nonneg_float g ∧ ∀ s, g ≠ S754_infinity s.
Proof.
  intros Hz Hg. destruct (Z.eq_dec z 0) as [->|Hne].
  - injection Hg as <-. done.
  - destruct (float_of_Z_pos z g) as (mg & eg & _ & _ & -> & Hm & _);
      [lia|done|]. done.
Qed.

Lemma float_of_Z_raises z e : float_of_Z z = Raised e → e = OverflowError.
Proof.
  unfold float_of_Z. by destruct (binary_normalize _ _ _ _ _); intros [= <-].
Qed.








(* ===================================================================== *)
(** * Part 7: properties of the ledger                                   *)
(* ===================================================================== *)

(** ** The store *)

Lemma wallet_at_append_eq (σ : heap) l a :
  wallet_at (append_to σ l a) l = wallet_at σ l ++ [a].
Proof.
  unfold wallet_at at 1, append_to.
  by rewrite lookup_total_insert_eq.
Qed.

Lemma wallet_at_append_ne (σ : heap) l l' a :
  l ≠ l' → wallet_at (append_to σ l a) l' = wallet_at σ l'.
Proof.
  intros Hne. unfold wallet_at, append_to.
  by rewrite lookup_total_insert_ne.
Qed.

(** ** Loops *)

Lemma for_each_app {A S} (body : S → A → result S) l1 l2 s :
  for_each body (l1 ++ l2) s = s' ← for_each body l1 s; for_each body l2 s'.
Proof.
  revert s. induction l1 as [|x l1 IH]; intros s; simpl; [done|].
  unfold mbind, result_mbind, result_bind.
  destruct (body s x) as [s'|e]; [apply IH | done].
Qed.

Lemma balance_of_snoc w a :
  balance_of (w ++ [a]) = b ← balance_of w; py_add b (amount a).
Proof.
  unfold balance_of. rewrite for_each_app.
  unfold mbind, result_mbind, result_bind.
  destruct (for_each _ w _) as [b|e]; [simpl | done].
  by destruct (py_add b (amount a)).
Qed.

(** ** The methods, one equation each *)


Lemma type_test_true (a : value) :
  negb (bool_decide (type a = Tint)) || negb (bool_decide (type a = Tfloat))
  = true.
Proof. by destruct a. Qed.

Lemma add_revenue_unfold self a d t (σ : heap) :
  add_revenue self a d t σ =
  match py_lt a (VInt 0) with
  | Returned true => (Raised (deposit_error (category_at σ self)), σ)
  | Returned false => (Returned tt, append_to σ self (mkAction a d t))
  | Raised e => (Raised e, σ)
  end.
Proof.
  unfold add_revenue. rewrite type_test_true.
  unfold mbind, M_bind, bind, lift.
  by destruct (py_lt a (VInt 0)) as [[]|].
Qed.

Lemma get_balance_unfold self (σ : heap) :
  get_balance self σ = (balance_of (wallet_at σ self), σ).
Proof. reflexivity. Qed.

Lemma get_expense_total_unfold self (σ : heap) :
  get_expense_total self σ = (expense_total_of (wallet_at σ self), σ).
Proof. reflexivity. Qed.

Lemma check_category_balance_unfold self a (σ : heap) :
  check_category_balance self a σ =
  (short ← (magnitude ← py_abs a;
            b ← balance_of (wallet_at σ self);
            py_gt magnitude b);
   Returned (negb short), σ).
Proof.
  unfold check_category_balance.
  unfold mbind, M_bind, bind, lift, result_mbind, result_bind; simpl.
  destruct (py_abs a) as [m|]; [|done].
  destruct (balance_of _) as [b|]; [|done].
  by destruct (py_gt m b) as [[]|].
Qed.

Lemma py_abs_number a :
  is_number a = true → ∃ m, py_abs a = Returned m.
Proof. destruct a; try done; intros _; unfold py_abs; simpl; eauto. Qed.

Lemma add_expense_unfold self a d t (σ : heap) :
  add_expense self a d t σ =
  if is_number a then
    match b ← balance_of (wallet_at σ self); short_of a b with
    | Raised e => (Raised e, σ)
    | Returned true => (Returned false, σ)
    | Returned false =>
        match debit a with
        | Returned a' => (Returned true, append_to σ self (mkAction a' d t))
        | Raised e => (Raised e, σ)
        end
    end
  else (Raised (withdraw_error (category_at σ self)), σ).
Proof.
  unfold add_expense. destruct (is_number a) eqn:Hn; simpl; [|done].
  unfold mbind at 1, M_bind at 1, bind at 1.
  rewrite check_category_balance_unfold.
  destruct (py_abs_number a Hn) as [m Hm].
  unfold short_of. rewrite Hm.
  unfold mbind, result_mbind, result_bind.
  destruct (balance_of (wallet_at σ self)) as [b|]; [|done].
  destruct (py_gt m b) as [[]|]; simpl; [done| |done].
  unfold debit, mbind, M_bind, bind, lift, result_mbind, result_bind.
  destruct (py_gt a (VInt 0)) as [[]|]; simpl; [|done|done].
  by destruct (py_mul a (VInt (-1))).
Qed.

Lemma transfer_money_unfold self a target (σ : heap) :
  transfer_money self a target σ =
  if is_number a then
    match target with
    | Val _ => (Raised no_category_error, σ)
    | Ref tgt =>
        match add_expense self a
                ("Send money to " +:+ category_at σ tgt) true σ with
        | (Returned true, σ1) =>
            match add_revenue tgt a
                    ("Send money from " +:+ category_at σ1 self) true σ1 with
            | (Returned _, σ2) => (Returned true, σ2)
            | (Raised e, σ2) => (Raised e, σ2)
            end
        | (Returned false, σ1) => (Returned false, σ1)
        | (Raised e, σ1) => (Raised e, σ1)
        end
    end
  else (Raised (send_error (category_at σ self)), σ).
Proof.
  unfold transfer_money. destruct (is_number a); simpl; [|done].
  destruct target as [tgt|v]; [|done].
  unfold mbind, M_bind, bind, category; simpl.
  destruct (add_expense _ _ _ _ σ) as [[[]|] σ1]; simpl; try done.
Qed.

(** ** Negative revenue *)

(** C4, as the code has it: the guard of [add_revenue] reduces to
    [amount < 0], so an amount below zero (int or float) is rejected: the
    call raises the deposit Exception and the store is left as it was. *)
Theorem add_revenue_negative_raises self a d t (σ : heap) :
  py_lt a (VInt 0) = Returned true →
  add_revenue self a d t σ = (Raised (deposit_error (category_at σ self)), σ).
Proof.
  intros Hneg. by rewrite add_revenue_unfold, Hneg.
Qed.

Lemma add_revenue_negative_raises_witness :
  add_revenue 1%positive (VInt (-5)) "refund" false ∅
  = (Raised (deposit_error (category_at ∅ 1%positive)), ∅).
Proof.
  apply add_revenue_negative_raises; reflexivity.
Defined.

(** C4, as stated, fails: depositing -5 into an empty "Income" category
    raises, and the wallet stays empty. *)
Lemma add_revenue_negative_not_appended :
  add_revenue 1%positive (VInt (-5)) "refund" false
    {[1%positive := mkCategory "Income" []]}
  = (Raised (deposit_error "Income"), {[1%positive := mkCategory "Income" []]})
  ∧ wallet_at {[1%positive := mkCategory "Income" []]} 1%positive = [].
Proof. split; reflexivity. Qed.

(** ** What add_revenue stores *)

(** C6, as the code has it: an accepted amount is stored exactly as it was
    passed, with no rounding; for an int this is also [round(amount, 2)]. *)
Theorem add_revenue_stores_amount_unrounded self a d t (σ σ' : heap) :
  add_revenue self a d t σ = (Returned tt, σ') →
  σ' = append_to σ self (mkAction a d t)
  ∧ wallet_at σ' self = wallet_at σ self ++ [mkAction a d t]
  ∧ (type a = Tint → py_round2 a = Returned a).
Proof.
  rewrite add_revenue_unfold.
  destruct (py_lt a (VInt 0)) as [[]|]; intros [= <-].
  split; [done|]. split; [apply wallet_at_append_eq|].
  by destruct a.
Qed.

Lemma add_revenue_stores_amount_unrounded_witness :
  let a := VFloat (decimal 1234 3) in
  let σ' := append_to ∅ 1%positive (mkAction a "Gift" false) in
  σ' = append_to ∅ 1%positive (mkAction a "Gift" false)
  ∧ wallet_at σ' 1%positive = wallet_at ∅ 1%positive ++ [mkAction a "Gift" false]
  ∧ (type a = Tint → py_round2 a = Returned a).
Proof.
  apply (add_revenue_stores_amount_unrounded
           1%positive (VFloat (decimal 1234 3)) "Gift" false ∅).
  vm_compute. reflexivity.
Defined.

(** C6, as stated, fails: 0.125 is stored as 0.125, while round(0.125, 2)
    is 0.12. *)
Lemma add_revenue_does_not_round :
  wallet_at (snd (add_revenue 1%positive (VFloat (decimal 125 3)) "Gift" false ∅))
    1%positive
  = [mkAction (VFloat (decimal 125 3)) "Gift" false]
  ∧ py_round2 (VFloat (decimal 125 3)) = Returned (VFloat (decimal 12 2))
  ∧ py_eq (VFloat (decimal 125 3)) (VFloat (decimal 12 2)) = false.
Proof. repeat split; vm_compute; reflexivity. Qed.

(** ** The seed scenarios *)

(** The store [get_fill_data] builds, and the references it allocates. *)
Example fill_data_returns :
  fst (get_fill_data ∅) = Returned [1; 2; 3; 5]%positive.
Proof. vm_compute. reflexivity. Qed.

Example fill_data_grocery_wallet :
  wallet_at (snd (get_fill_data ∅)) 5%positive
  = [mkAction (VInt 50) "Send money from Food" true;
     mkAction (VFloat (S754_finite true 8646911284551352 (-48))) "Chili's" false;
     mkAction (VFloat (S754_finite true 5713942027226317 (-49))) "Walmart" false].
Proof. vm_compute. reflexivity. Qed.

Lemma add_expense_accepted self a d t (σ : heap) b a' :
  is_number a = true →
  balance_of (wallet_at σ self) = Returned b →
  short_of a b = Returned false →
  debit a = Returned a' →
  add_expense self a d t σ
  = (Returned true, append_to σ self (mkAction a' d t)).
Proof.
  intros Hn Hb Hs Hd. rewrite add_expense_unfold, Hn, Hb. simpl.
  unfold mbind, result_mbind, result_bind. by rewrite Hs, Hd.
Qed.

Lemma add_expense_rejected self a d t (σ : heap) b :
  is_number a = true →
  balance_of (wallet_at σ self) = Returned b →
  short_of a b = Returned true →
  add_expense self a d t σ = (Returned false, σ).
Proof.
  intros Hn Hb Hs. rewrite add_expense_unfold, Hn, Hb. simpl.
  unfold mbind, result_mbind, result_bind. by rewrite Hs.
Qed.

(** C5, with the balance the code computes: on a wallet whose only entry is
    a transfer credit of 50 (int or float), the expenses 30.72 and 10.15 are
    both accepted, after which [get_expense_total()] returns 40.87 and
    [get_balance()] returns 9.13 (50 - 30.72 - 10.15), not 9.28. *)
Theorem grocery_scenario g credit d d1 d2 (σ : heap) :
  credit = VInt 50 ∨ credit = VFloat (decimal 50 0) →
  wallet_at σ g = [mkAction credit d true] →
  ∃ σ1 σ2 : heap,
    add_expense g (VFloat (decimal 3072 2)) d1 false σ = (Returned true, σ1)
    ∧ add_expense g (VFloat (decimal 1015 2)) d2 false σ1 = (Returned true, σ2)
    ∧ get_expense_total g σ2 = (Returned (VFloat (decimal 4087 2)), σ2)
    ∧ get_balance g σ2 = (Returned (VFloat (decimal 913 2)), σ2)
    ∧ py_eq (VFloat (decimal 913 2)) (VFloat (decimal 928 2)) = false.
Proof.
  intros Hc Hw.
  set (a1 := mkAction (VFloat (S754_finite true 8646911284551352 (-48))) d1 false).
  set (a2 := mkAction (VFloat (S754_finite true 5713942027226317 (-49))) d2 false).
  exists (append_to σ g a1), (append_to (append_to σ g a1) g a2).
  assert (Hw1 : wallet_at (append_to σ g a1) g = [mkAction credit d true; a1])
    by (by rewrite wallet_at_append_eq, Hw).
  assert (Hw2 : wallet_at (append_to (append_to σ g a1) g a2) g
                = [mkAction credit d true; a1; a2])
    by (by rewrite wallet_at_append_eq, Hw1).
  split; [|split; [|split; [|split]]].
  - eapply add_expense_accepted; [done| rewrite Hw | |];
      destruct Hc as [-> | ->]; vm_compute; reflexivity.
  - eapply add_expense_accepted; [done| rewrite Hw1 | |];
      destruct Hc as [-> | ->]; vm_compute; reflexivity.
  - rewrite get_expense_total_unfold, Hw2. f_equal.
  - rewrite get_balance_unfold, Hw2. f_equal.
    destruct Hc as [-> | ->]; vm_compute; reflexivity.
  - vm_compute; reflexivity.
Qed.

Lemma grocery_scenario_witness :
  ∃ σ1 σ2 : heap,
    add_expense 5%positive (VFloat (decimal 3072 2)) "Chili's" false
      {[5%positive :=
          mkCategory "Grocery" [mkAction (VInt 50) "Send money from Food" true]]}
    = (Returned true, σ1)
    ∧ add_expense 5%positive (VFloat (decimal 1015 2)) "Walmart" false σ1
      = (Returned true, σ2)
    ∧ get_expense_total 5%positive σ2 = (Returned (VFloat (decimal 4087 2)), σ2)
    ∧ get_balance 5%positive σ2 = (Returned (VFloat (decimal 913 2)), σ2)
    ∧ py_eq (VFloat (decimal 913 2)) (VFloat (decimal 928 2)) = false.
Proof.
  apply (grocery_scenario 5%positive (VInt 50) "Send money from Food").
  - left; reflexivity.
  - reflexivity.
Defined.

(** C5, as stated, fails: in the store the seed data builds, the balance of
    Grocery (a transfer credit of 50, then the expenses 30.72 and 10.15) is
    9.13, which is not 9.28; the expense total is 40.87. *)
Lemma grocery_balance_is_not_9_28 :
  get_balance 5%positive (snd (get_fill_data ∅))
  = (Returned (VFloat (decimal 913 2)), snd (get_fill_data ∅))
  ∧ py_eq (VFloat (decimal 913 2)) (VFloat (decimal 928 2)) = false
  ∧ fst (get_expense_total 5%positive (snd (get_fill_data ∅)))
    = Returned (VFloat (decimal 4087 2)).
Proof. repeat split; vm_compute; reflexivity. Qed.

(** C9: from a source whose balance is 4512 into an empty target,
    [transfer_money(1000, target)] succeeds; the source balance becomes 3512
    and the target balance 1000, and each wallet gains exactly one entry,
    flagged as a transfer. *)
Theorem income_to_food_transfer src tgt b a (σ : heap) :
  b = VInt 4512 ∨ b = VFloat (decimal 4512 0) →
  a = VInt 1000 ∨ a = VFloat (decimal 1000 0) →
  balance_of (wallet_at σ src) = Returned b →
  wallet_at σ tgt = [] →
  ∃ (σ' : heap) out_entry in_entry bs bt,
    transfer_money src a (Ref tgt) σ = (Returned true, σ')
    ∧ wallet_at σ' src = wallet_at σ src ++ [out_entry]
    ∧ transfer out_entry = true
    ∧ wallet_at σ' tgt = [in_entry]
    ∧ transfer in_entry = true
    ∧ get_balance src σ' = (Returned bs, σ') ∧ py_eq bs (VInt 3512) = true
    ∧ get_balance tgt σ' = (Returned bt, σ') ∧ py_eq bt (VInt 1000) = true.
Proof.
  intros Hb Ha Hbal Htgt.
  assert (Hne : src ≠ tgt).
  { intros ->. rewrite Htgt in Hbal. vm_compute in Hbal.
    destruct Hb as [-> | ->]; discriminate. }
  assert (∃ a', debit a = Returned a' ∧ short_of a b = Returned false
                ∧ py_lt a (VInt 0) = Returned false
                ∧ ∃ bs, py_add b a' = Returned bs ∧ py_eq bs (VInt 3512) = true)
    as (a' & Hd & Hs & Hlt & bs & Hbs & Hbs').
  { destruct Ha as [-> | ->], Hb as [-> | ->];
      (eexists; split; [vm_compute; reflexivity|];
       do 2 (split; [vm_compute; reflexivity|]);
       eexists; split; vm_compute; reflexivity). }
  assert (∃ bt, py_add (VInt 0) a = Returned bt ∧ py_eq bt (VInt 1000) = true)
    as (bt & Hbt & Hbt').
  { destruct Ha as [-> | ->]; eexists; split; vm_compute; reflexivity. }
  set (out_entry := mkAction a' ("Send money to " +:+ category_at σ tgt) true).
  set (σ1 := append_to σ src out_entry).
  set (in_entry := mkAction a ("Send money from " +:+ category_at σ1 src) true).
  exists (append_to σ1 tgt in_entry), out_entry, in_entry, bs, bt.
  assert (Hsrc : wallet_at (append_to σ1 tgt in_entry) src
                 = wallet_at σ src ++ [out_entry]).
  { rewrite wallet_at_append_ne by done. apply wallet_at_append_eq. }
  assert (Htgt' : wallet_at (append_to σ1 tgt in_entry) tgt = [in_entry]).
  { rewrite wallet_at_append_eq. unfold σ1.
    rewrite wallet_at_append_ne by done. by rewrite Htgt. }
  repeat split; try done.
  - rewrite transfer_money_unfold.
    replace (is_number a) with true by (by destruct Ha as [-> | ->]).
    erewrite add_expense_accepted; [| by destruct Ha as [-> | ->] | done..].
    rewrite add_revenue_unfold, Hlt. reflexivity.
  - rewrite get_balance_unfold, Hsrc, balance_of_snoc, Hbal.
    change (amount out_entry) with a'.
    unfold mbind, result_mbind, result_bind. by rewrite Hbs.
  - rewrite get_balance_unfold, Htgt'.
    change (balance_of [in_entry]) with (b0 ← py_add (VInt 0) a; Returned b0).
    unfold mbind, result_mbind, result_bind. by rewrite Hbt.
Qed.

Lemma income_to_food_transfer_witness :
  ∃ (σ' : heap) out_entry in_entry bs bt,
    transfer_money 1%positive (VInt 1000) (Ref 2%positive)
      {[1%positive :=
          mkCategory "Income"
            [mkAction (VInt 5000) "Salary from FIT" false;
             mkAction (VInt (-488)) "Rent" false];
        2%positive := mkCategory "Food" []]}
    = (Returned true, σ')
    ∧ wallet_at σ' 1%positive
      = [mkAction (VInt 5000) "Salary from FIT" false;
         mkAction (VInt (-488)) "Rent" false] ++ [out_entry]
    ∧ transfer out_entry = true
    ∧ wallet_at σ' 2%positive = [in_entry]
    ∧ transfer in_entry = true
    ∧ get_balance 1%positive σ' = (Returned bs, σ')
    ∧ py_eq bs (VInt 3512) = true
    ∧ get_balance 2%positive σ' = (Returned bt, σ')
    ∧ py_eq bt (VInt 1000) = true.
Proof.
  apply (income_to_food_transfer 1%positive 2%positive (VInt 4512) (VInt 1000)).
  - left; reflexivity.
  - left; reflexivity.
  - reflexivity.
  - reflexivity.
Defined.

(** ** Creating a category *)


Lemma to_lower_idemp c : to_lower (to_lower c) = to_lower c.
Proof. destruct c as [[] [] [] [] [] [] [] []]; reflexivity. Qed.

Lemma to_lower_to_upper c : to_lower (to_upper c) = to_lower c.
Proof. destruct c as [[] [] [] [] [] [] [] []]; reflexivity. Qed.

Lemma ascii_lower_title_from b s :
  ascii_lower (ascii_title_from b s) = ascii_lower s.
Proof.
  revert b. induction s as [|c s IH]; intros b; simpl; [done|].
  destruct (is_lower c); [|destruct (is_upper c)]; simpl; rewrite IH;
    destruct b; by rewrite ?to_lower_to_upper, ?to_lower_idemp.
Qed.

(** On ASCII text a name and its title-cased form are equal up to case. *)
Lemma ascii_lower_title s : ascii_lower (ascii_title s) = ascii_lower s.
Proof. apply ascii_lower_title_from. Qed.

Lemma name_taken_clashes lower (_categories : gmap string loc) name :
  name_taken lower _categories name = true ↔ clashes lower _categories name.
Proof.
  unfold name_taken, clashes. rewrite existsb_exists. split.
  - intros (key & Hin & Heq). apply list_elem_of_In in Hin.
    apply list_elem_of_fmap in Hin as ([k c] & -> & Hin).
    apply elem_of_map_to_list in Hin.
    exists k, c. split; [done|]. by apply bool_decide_eq_true in Heq.
  - intros (key & c & Hk & Heq). exists key. split.
    + apply list_elem_of_In, list_elem_of_fmap. exists (key, c).
      split; [done|]. by apply elem_of_map_to_list.
    + by apply bool_decide_eq_true.
Qed.

(** C7, as the code has it, for [str.lower] and [str.title] whatever they
    compute: [_add_category] returns False exactly when some key of the dict
    equals the name case-insensitively ([key.lower() == name.lower()]), and
    then changes nothing; otherwise it creates a new empty Category and
    stores it under the title-cased name, [name.title()] (not under the name
    as it was typed).  That key is one the dict did not have whenever the
    title-cased name equals the name up to case, as every ASCII name does
    ([ascii_lower_title]). *)
Theorem add_category_spec (lower title : string → string)
    (_categories : gmap string loc) name (σ : heap) :
  ∃ ok _categories' (σ' : heap),
    _add_category lower title _categories name σ
    = (Returned (ok, _categories'), σ')
    ∧ (ok = false ↔ clashes lower _categories name)
    ∧ (ok = false → _categories' = _categories ∧ σ' = σ)
    ∧ (ok = true →
       ∃ c, σ !! c = None
            ∧ _categories' = <[title name := c]> _categories
            ∧ σ' = <[c := mkCategory (title name) []]> σ
            ∧ (lower (title name) = lower name →
               _categories !! title name = None)).
Proof.
  unfold _add_category.
  destruct (name_taken lower _categories name) eqn:Ht.
  - exists false, _categories, σ. repeat split; try done.
    intros _. by apply name_taken_clashes.
  - exists true, (<[title name := fresh (dom σ)]> _categories),
           (<[fresh (dom σ) := mkCategory (title name) []]> σ).
    assert (Hno : ¬ clashes lower _categories name).
    { rewrite <- name_taken_clashes. by rewrite Ht. }
    repeat split; try done.
    intros _. exists (fresh (dom σ)). repeat split; try done.
    + apply not_elem_of_dom, is_fresh.
    + intros Hl. destruct (_categories !! title name) as [c|] eqn:Hk; [|done].
      destruct Hno. by exists (title name), c.
Qed.

(** C7, as stated, fails on the key: creating "food" in an empty registry
    succeeds and files the new category under "Food", not under "food". *)
Lemma add_category_key_is_title_cased :
  ∃ _categories' (σ' : heap),
    _add_category ascii_lower ascii_title ∅ "food" ∅
    = (Returned (true, _categories'), σ')
    ∧ _categories' !! "food" = None
    ∧ _categories' !! "Food" = Some 1%positive
    ∧ σ' !! 1%positive = Some (mkCategory "Food" []).
Proof.
  exists {[ "Food" := 1%positive ]}, {[ 1%positive := mkCategory "Food" [] ]}.
  repeat split; vm_compute; reflexivity.
Qed.

(** Creating "Food" when "food" is a key fails and changes nothing. *)
Example add_category_Food_after_food (c : loc) (σ : heap) :
  _add_category ascii_lower ascii_title {[ "food" := c ]} "Food" σ
  = (Returned (false, {[ "food" := c ]}), σ).
Proof.
  unfold _add_category.
  replace (name_taken ascii_lower {[ "food" := c ]} "Food") with true;
    [done|].
  symmetry. apply name_taken_clashes.
  exists "food", c. split; [apply lookup_singleton_eq | done].
Qed.

(** ** What each method does to the store *)


Lemma float_of_Z_minus_one : float_of_Z (-1) = Returned minus_one.
Proof. vm_compute. reflexivity. Qed.

Lemma py_gt_num a b x y :
  as_num a = Some x → as_num b = Some y →
  py_gt a b = Returned (num_gtb x y).
Proof. intros Ha Hb. unfold py_gt, py_binop. by rewrite Ha, Hb. Qed.

Lemma py_lt_num a b x y :
  as_num a = Some x → as_num b = Some y →
  py_lt a b = Returned (num_ltb x y).
Proof. intros Ha Hb. unfold py_lt, py_binop. by rewrite Ha, Hb. Qed.

Lemma debit_int z :
  debit (VInt z) = Returned (VInt (if 0 <? z then z * -1 else z)).
Proof.
  unfold debit. erewrite py_gt_num by reflexivity.
  rewrite num_gtb_int. unfold mbind, result_mbind, result_bind.
  by destruct (0 <? z).
Qed.

Lemma debit_float f :
  debit (VFloat f)
  = Returned (VFloat (if num_gtb (NFloat f) (NInt 0)
                      then fmul f minus_one else f)).
Proof.
  unfold debit. erewrite py_gt_num by reflexivity.
  unfold mbind, result_mbind, result_bind.
  destruct (num_gtb (NFloat f) (NInt 0)); [|done].
  unfold py_mul, py_binop; simpl as_num. unfold num_mul.
  by rewrite float_of_Z_minus_one.
Qed.

Lemma debit_number a :
  is_number a = true → ∃ a', debit a = Returned a' ∧ is_number a' = true.
Proof.
  destruct a; try done; intros _.
  - rewrite debit_int. eauto.
  - rewrite debit_float. eauto.
Qed.

Lemma py_lt_number a b :
  is_number a = true → ∃ r, py_lt a (VInt b) = Returned r.
Proof. destruct a; try done; intros _; unfold py_lt, py_binop; simpl; eauto. Qed.

(** [add_revenue] either leaves the store as it is, or appends the amount,
    which is then not below zero. *)
Lemma add_revenue_effect self a d t (σ : heap) :
  snd (add_revenue self a d t σ) = σ
  ∨ (py_lt a (VInt 0) = Returned false
     ∧ add_revenue self a d t σ
       = (Returned tt, append_to σ self (mkAction a d t))).
Proof.
  rewrite add_revenue_unfold.
  destruct (py_lt a (VInt 0)) as [[]|]; auto.
Qed.

(** [add_expense] either leaves the store as it is and does not return
    True, or returns True and appends the debit. *)
Lemma add_expense_effect self a d t (σ : heap) :
  (snd (add_expense self a d t σ) = σ
   ∧ fst (add_expense self a d t σ) ≠ Returned true)
  ∨ (∃ a' b, is_number a = true
       ∧ balance_of (wallet_at σ self) = Returned b
       ∧ short_of a b = Returned false
       ∧ debit a = Returned a'
       ∧ add_expense self a d t σ
         = (Returned true, append_to σ self (mkAction a' d t))).
Proof.
  rewrite add_expense_unfold.
  destruct (is_number a); [|by left].
  destruct (balance_of (wallet_at σ self)) as [b|]; simpl; [|by left].
  unfold mbind, result_mbind, result_bind.
  destruct (short_of a b) as [[]|] eqn:Hs; [by left| |by left].
  destruct (debit a) as [a'|] eqn:Hd; [|by left].
  right. by exists a', b.
Qed.

(** ** The expense total only sees non-transfer debits *)

Lemma expense_total_of_snoc_skip w a :
  transfer a = true ∨ py_lt (amount a) (VInt 0) = Returned false →
  expense_total_of (w ++ [a]) = expense_total_of w.
Proof.
  intros Hskip. unfold expense_total_of. rewrite for_each_app.
  unfold mbind at 1 3 4, result_mbind, result_bind.
  destruct (for_each _ w _) as [total|]; [|done].
  simpl for_each. unfold mbind at 1, result_mbind, result_bind.
  destruct Hskip as [-> | Hge]; [done|].
  destruct (transfer a); [done|]. unfold mbind at 1, result_mbind, result_bind.
  by rewrite Hge.
Qed.

(** C10: the expense total of every category is the same before and after
    any call of [add_revenue] and any call of [transfer_money] (whatever the
    call returns or raises, and also when source and target are the same
    object); a call of [add_expense] changes an expense total only when it
    returns True for this very category with [transfer=False] and appends
    an amount below zero. *)
Theorem expense_total_frame self a d t target (σ : heap) l :
  expense_total_of (wallet_at (snd (add_revenue self a d t σ)) l)
  = expense_total_of (wallet_at σ l)
  ∧ expense_total_of (wallet_at (snd (transfer_money self a target σ)) l)
    = expense_total_of (wallet_at σ l)
  ∧ (expense_total_of (wallet_at (snd (add_expense self a d t σ)) l)
     = expense_total_of (wallet_at σ l)
     ∨ (l = self ∧ t = false
        ∧ ∃ a', add_expense self a d t σ
                = (Returned true, append_to σ self (mkAction a' d false))
                ∧ py_lt a' (VInt 0) = Returned true)).
Proof.
  assert (Hrev : ∀ self a d t (σ : heap),
    py_lt a (VInt 0) = Returned false →
    expense_total_of (wallet_at (append_to σ self (mkAction a d t)) l)
    = expense_total_of (wallet_at σ l)).
  { intros s x dx tx τ Hx. destruct (decide (s = l)) as [->|Hne].
    - rewrite wallet_at_append_eq. apply expense_total_of_snoc_skip. by right.
    - by rewrite wallet_at_append_ne. }
  assert (Htr : ∀ self a d (σ : heap),
    expense_total_of (wallet_at (append_to σ self (mkAction a d true)) l)
    = expense_total_of (wallet_at σ l)).
  { intros s x dx τ. destruct (decide (s = l)) as [->|Hne].
    - rewrite wallet_at_append_eq. apply expense_total_of_snoc_skip. by left.
    - by rewrite wallet_at_append_ne. }
  split; [|split].
  - destruct (add_revenue_effect self a d t σ) as [-> | [Hge ->]]; [done|].
    by apply Hrev.
  - rewrite transfer_money_unfold.
    destruct (is_number a); [|done]. destruct target as [tgt|v]; [|done].
    destruct (add_expense_effect self a
                ("Send money to " +:+ category_at σ tgt) true σ)
      as [[Hσ Hr] | (a' & b & _ & _ & _ & _ & ->)].
    + destruct (add_expense _ _ _ _ σ) as [[[]|] σ1]; simpl in *;
        by subst.
    + set (σ1 := append_to σ self _).
      destruct (add_revenue_effect tgt a
                  ("Send money from " +:+ category_at σ1 self) true σ1)
        as [Hσ | [_ ->]].
      * destruct (add_revenue _ _ _ _ σ1) as [[] σ2]; simpl in *; subst σ2;
          unfold σ1; apply Htr.
      * simpl. rewrite Htr. unfold σ1. apply Htr.
  - destruct (add_expense_effect self a d t σ)
      as [[-> _] | (a' & b & Hn & _ & _ & Hd & ->)]; [by left|].
    simpl. destruct (decide (self = l)) as [->|Hne];
      [|left; by rewrite wallet_at_append_ne].
    destruct t; [left; apply Htr|].
    destruct (debit_number a Hn) as (a'' & Hd' & Hn').
    rewrite Hd in Hd'. injection Hd' as <-.
    destruct (py_lt_number a' 0 Hn') as [[] Hlt].
    + right. eauto.
    + left. by apply Hrev.
Qed.

(** ** Transfers *)

(** C3: when [transfer_money] returns False the source was short of funds
    and the store is the one before the call, so the wallets of source and
    target are unchanged; when it returns True, the debit is appended to the
    source first, in a store where the wallet of a distinct target is still
    untouched, and the credit is appended to the target afterwards. *)
Theorem transfer_money_all_or_nothing self a tgt (σ σ' : heap) r :
  transfer_money self a (Ref tgt) σ = (r, σ') →
  (r = Returned false →
     (∃ b, balance_of (wallet_at σ self) = Returned b
           ∧ short_of a b = Returned true)
     ∧ σ' = σ
     ∧ wallet_at σ' self = wallet_at σ self
     ∧ wallet_at σ' tgt = wallet_at σ tgt)
  ∧ (r = Returned true →
     ∃ a' (σ1 : heap),
       add_expense self a ("Send money to " +:+ category_at σ tgt) true σ
       = (Returned true, σ1)
       ∧ wallet_at σ1 self
         = wallet_at σ self
           ++ [mkAction a' ("Send money to " +:+ category_at σ tgt) true]
       ∧ (tgt ≠ self → wallet_at σ1 tgt = wallet_at σ tgt)
       ∧ add_revenue tgt a ("Send money from " +:+ category_at σ1 self) true σ1
         = (Returned tt, σ')
       ∧ wallet_at σ' tgt
         = wallet_at σ1 tgt
           ++ [mkAction a ("Send money from " +:+ category_at σ1 self) true]).
Proof.
  rewrite transfer_money_unfold.
  destruct (is_number a) eqn:Hn; [|by intros [= <- <-]].
  rewrite add_expense_unfold, Hn.
  destruct (balance_of (wallet_at σ self)) as [b|]; simpl;
    [|by intros [= <- <-]].
  unfold mbind, result_mbind, result_bind.
  destruct (short_of a b) as [[]|] eqn:Hs.
  - intros [= <- <-]. split; [|done]. intros _. repeat split; eauto.
  - destruct (debit a) as [a'|]; [|by intros [= <- <-]].
    set (σ1 := append_to σ self _).
    rewrite add_revenue_unfold.
    destruct (py_lt a (VInt 0)) as [[]|] eqn:Hlt; intros [= <- <-];
      (split; [done|]); try done.
    intros _. exists a', σ1. repeat split.
    + apply wallet_at_append_eq.
    + intros Hne. by apply wallet_at_append_ne.
    + by rewrite add_revenue_unfold, Hlt.
    + apply wallet_at_append_eq.
  - by intros [= <- <-].
Qed.

Lemma transfer_money_all_or_nothing_witness :
  let σ : heap :=
    {[1%positive := mkCategory "Food" [mkAction (VInt 100) "Gift" false];
      2%positive := mkCategory "Savings" []]} in
  transfer_money 1%positive (VInt 5000) (Ref 2%positive) σ = (Returned false, σ)
  ∧ (∃ b, balance_of (wallet_at σ 1%positive) = Returned b
          ∧ short_of (VInt 5000) b = Returned true)
  ∧ wallet_at σ 1%positive = [mkAction (VInt 100) "Gift" false]
  ∧ wallet_at σ 2%positive = [].
Proof.
  intros σ.
  assert (H : transfer_money 1%positive (VInt 5000) (Ref 2%positive) σ
              = (Returned false, σ)) by (vm_compute; reflexivity).
  destruct (transfer_money_all_or_nothing _ _ _ _ _ _ H) as [Hfail _].
  destruct (Hfail eq_refl) as (Hshort & _ & _ & _).
  split; [exact H|]. split; [exact Hshort|]. split; reflexivity.
Defined.

(** ** Exceptions *)

Lemma py_add_number a b c : py_add a b = Returned c → is_number c = true.
Proof.
  unfold py_add, py_binop.
  destruct (as_num a) as [x|]; [|done]. destruct (as_num b) as [y|]; [|done].
  unfold fmap, result_fmap, result_bind.
  destruct (num_add x y) as [[]|]; by intros [= <-].
Qed.

Lemma balance_of_number w b : balance_of w = Returned b → is_number b = true.
Proof.
  destruct w as [|a w' _] using rev_ind; [by intros [= <-]|].
  rewrite balance_of_snoc. unfold mbind, result_mbind, result_bind.
  destruct (balance_of w') as [b'|]; [|done]. apply py_add_number.
Qed.

Lemma short_of_number a b :
  is_number a = true → is_number b = true → ∃ s, short_of a b = Returned s.
Proof.
  unfold short_of, py_abs.
  destruct a; try done; destruct b; try done; intros _ _; simpl;
    unfold mbind, result_mbind, result_bind, py_gt, py_binop; simpl; eauto.
Qed.

(** C8, as the code has it: invalid input is reported by raising.
    [add_expense] and [transfer_money] raise an Exception for an amount that
    is not an int or a float, [transfer_money] raises one for a target that
    is not a Category, and [add_revenue] raises one for an amount below
    zero; none of these changes the store.  For an int or a float amount,
    [add_revenue] returns None when the amount is not below zero, whatever
    the wallet holds; [add_expense] returns True or False for every amount,
    below zero or not, when the balance can be computed; [transfer_money]
    to a Category returns True or False when the amount is not below zero
    and the balance can be computed. *)
Theorem operations_raise_or_return self a d t (σ : heap) :
  (is_number a = false →
     add_expense self a d t σ
     = (Raised (withdraw_error (category_at σ self)), σ)
     ∧ ∀ target, transfer_money self a target σ
                 = (Raised (send_error (category_at σ self)), σ))
  ∧ (is_number a = true →
       ∀ v, transfer_money self a (Val v) σ = (Raised no_category_error, σ))
  ∧ (py_lt a (VInt 0) = Returned true →
       add_revenue self a d t σ
       = (Raised (deposit_error (category_at σ self)), σ))
  ∧ (is_number a = true →
     (py_lt a (VInt 0) = Returned false →
      fst (add_revenue self a d t σ) = Returned tt)
     ∧ ∀ b, balance_of (wallet_at σ self) = Returned b →
         (∃ ok, fst (add_expense self a d t σ) = Returned ok)
         ∧ (py_lt a (VInt 0) = Returned false →
            ∀ tgt, ∃ ok,
              fst (transfer_money self a (Ref tgt) σ) = Returned ok)).
Proof.
  split; [|split; [|split]].
  - intros Hn. split.
    + by rewrite add_expense_unfold, Hn.
    + intros target. by rewrite transfer_money_unfold, Hn.
  - intros Hn v. by rewrite transfer_money_unfold, Hn.
  - intros Hneg. by rewrite add_revenue_unfold, Hneg.
  - intros Hn. split; [intros Hge; by rewrite add_revenue_unfold, Hge|].
    intros b Hb.
    assert (Hexp : ∀ d t, ∃ ok, fst (add_expense self a d t σ) = Returned ok
              ∧ (ok = true → ∃ a', add_expense self a d t σ
                   = (Returned true, append_to σ self (mkAction a' d t)))).
    { intros d' t'. rewrite add_expense_unfold, Hn, Hb. simpl.
      unfold mbind, result_mbind, result_bind.
      destruct (short_of_number a b Hn (balance_of_number _ _ Hb)) as [s ->].
      destruct s; [by exists false|].
      destruct (debit_number a Hn) as (a' & -> & _).
      exists true. split; [done|]. eauto. }
    split; [destruct (Hexp d t) as (ok & ? & _); eauto|].
    intros Hge tgt. rewrite transfer_money_unfold, Hn.
    destruct (Hexp ("Send money to " +:+ category_at σ tgt) true)
      as (ok & Hok & Hok').
    destruct ok.
    + destruct (Hok' eq_refl) as (a' & ->).
      rewrite add_revenue_unfold, Hge. by exists true.
    + destruct (add_expense _ _ _ _ σ) as [r σ1]. simpl in Hok. subst r.
      by exists false.
Qed.

Lemma operations_raise_or_return_witness :
  let σ : heap :=
    {[1%positive := mkCategory "Food" [mkAction (VInt 100) "Gift" false]]} in
  (fst (add_revenue 1%positive (VInt 10) "Tip" false σ) = Returned tt
   ∧ (∃ ok, fst (add_expense 1%positive (VInt 10) "Tip" false σ)
            = Returned ok)
   ∧ ∀ tgt, ∃ ok,
       fst (transfer_money 1%positive (VInt 10) (Ref tgt) σ) = Returned ok)
  ∧ ∃ ok, fst (add_expense 1%positive (VInt (-10)) "Tip" false σ)
          = Returned ok.
Proof.
  intros σ. split.
  - destruct (operations_raise_or_return 1%positive (VInt 10) "Tip" false σ)
      as (_ & _ & _ & Hreturn).
    destruct (Hreturn eq_refl) as [Hrev Hrest].
    destruct (Hrest (VInt 100) eq_refl) as [Hexp Htr].
    split; [exact (Hrev eq_refl)|]. split; [exact Hexp|exact (Htr eq_refl)].
  - destruct (operations_raise_or_return 1%positive (VInt (-10)) "Tip" false
                σ) as (_ & _ & _ & Hreturn).
    destruct (Hreturn eq_refl) as [_ Hrest].
    exact (proj1 (Hrest (VInt 100) eq_refl)).
Defined.

(** C8, as stated, fails: an expense of "ten" raises an Exception, and so
    does a transfer to None. *)
Lemma operations_do_raise :
  add_expense 1%positive (VStr "ten") "Lunch" false
    {[1%positive := mkCategory "Food" []]}
  = (Raised (withdraw_error "Food"), {[1%positive := mkCategory "Food" []]})
  ∧ transfer_money 1%positive (VInt 10) (Val VNone)
      {[1%positive := mkCategory "Food" []]}
    = (Raised no_category_error, {[1%positive := mkCategory "Food" []]}).
Proof. split; reflexivity. Qed.

(** ** The policy of add_expense *)

Lemma as_num_of_num n : as_num (of_num n) = Some n.
Proof. by destruct n. Qed.

Lemma is_number_as_num a :
  is_number a = true → ∃ y, as_num a = Some y ∧ a = of_num y.
Proof. destruct a; try done; intros _; eauto. Qed.

Lemma debit_stored y : debit (of_num y) = Returned (of_num (stored_num y)).
Proof. destruct y; [apply debit_int | apply debit_float]. Qed.

Lemma short_of_num y n :
  short_of (of_num y) (of_num n) = Returned (num_gtb (num_abs y) n).
Proof.
  unfold short_of, py_abs. rewrite as_num_of_num.
  unfold mbind, result_mbind, result_bind.
  apply py_gt_num; apply as_num_of_num.
Qed.




(** ** The balance never goes below zero *)

(** A property of wallets that every accepted credit and every accepted
    debit of an admissible amount preserves holds after any sequence of
    calls, of every category, aliased or not. *)
Section WalletInvariant.
Variable P : list action → Prop.
Variable admissible : value → Prop.

Hypothesis P_credit : ∀ w a d t,
  P w → admissible a → py_lt a (VInt 0) = Returned false →
  P (w ++ [mkAction a d t]).
Hypothesis P_debit : ∀ w a a' b d t,
  P w → admissible a → is_number a = true →
  balance_of w = Returned b → short_of a b = Returned false →
  debit a = Returned a' →
  P (w ++ [mkAction a' d t]).

Lemma append_preserves (σ : heap) self e :
  holds_everywhere P σ → P (wallet_at σ self ++ [e]) →
  holds_everywhere P (append_to σ self e).
Proof.
  intros Hσ He l. destruct (decide (self = l)) as [<-|Hne].
  - by rewrite wallet_at_append_eq.
  - rewrite wallet_at_append_ne by done. apply Hσ.
Qed.

Lemma add_revenue_preserves self a d t (σ : heap) :
  admissible a → holds_everywhere P σ →
  holds_everywhere P (snd (add_revenue self a d t σ)).
Proof.
  intros Ha Hσ.
  destruct (add_revenue_effect self a d t σ) as [-> | [Hge ->]]; [done|].
  apply append_preserves; [done|]. by apply P_credit.
Qed.

Lemma add_expense_preserves self a d t (σ : heap) :
  admissible a → holds_everywhere P σ →
  holds_everywhere P (snd (add_expense self a d t σ)).
Proof.
  intros Ha Hσ.
  destruct (add_expense_effect self a d t σ)
    as [[-> _] | (a' & b & Hn & Hb & Hs & Hd & ->)]; [done|].
  apply append_preserves; [done|]. by apply P_debit with a b.
Qed.

Lemma transfer_money_preserves self a target (σ : heap) :
  admissible a → holds_everywhere P σ →
  holds_everywhere P (snd (transfer_money self a target σ)).
Proof.
  intros Ha Hσ. rewrite transfer_money_unfold.
  destruct (is_number a); [|done]. destruct target as [tgt|v]; [|done].
  pose proof (add_expense_preserves self a
                ("Send money to " +:+ category_at σ tgt) true σ Ha Hσ) as H1.
  destruct (add_expense _ _ _ _ σ) as [[[]|] σ1]; simpl in H1; try done.
  pose proof (add_revenue_preserves tgt a
                ("Send money from " +:+ category_at σ1 self) true σ1 Ha H1)
    as H2.
  by destruct (add_revenue _ _ _ _ σ1) as [[] σ2].
Qed.

Lemma run_calls_preserve cs (σ : heap) :
  Forall (λ c, admissible (call_amount c)) cs →
  holds_everywhere P σ → holds_everywhere P (run_calls cs σ).
Proof.
  intros Hcs. revert σ. induction Hcs as [|c cs Hc _ IH]; intros σ Hσ;
    [done|].
  apply IH. destruct c; simpl in *.
  - by apply add_revenue_preserves.
  - by apply add_expense_preserves.
  - by apply transfer_money_preserves.
Qed.
End WalletInvariant.

Lemma py_lt_zero_num a :
  py_lt a (VInt 0) = Returned false →
  ∃ y, as_num a = Some y ∧ num_ltb y (NInt 0) = false.
Proof.
  unfold py_lt, py_binop. destruct (as_num a) as [y|]; [|done].
  simpl. intros [= H]. eauto.
Qed.






Lemma int_balance_credit w a d t :
  int_balance w → no_float a = true → py_lt a (VInt 0) = Returned false →
  int_balance (w ++ [mkAction a d t]).
Proof.
  intros (z & Hw & Hz) Ha Hlt. unfold int_balance.
  rewrite balance_of_snoc, Hw. simpl.
  destruct a as [|b|x|f|s]; try done.
  - exists (z + Z.b2z b). split; [done|]. destruct b; simpl; lia.
  - exists (z + x). split; [done|].
    erewrite py_lt_num in Hlt by reflexivity. rewrite num_ltb_int in Hlt.
    injection Hlt as Hlt. lia.
Qed.

Lemma int_balance_debit w a a' b d t :
  int_balance w → no_float a = true → is_number a = true →
  balance_of w = Returned b → short_of a b = Returned false →
  debit a = Returned a' →
  int_balance (w ++ [mkAction a' d t]).
Proof.
  intros (z & Hw & Hz) Ha Hn Hb Hs Hd. unfold int_balance.
  destruct a as [|?|x|f|s]; try done.
  rewrite Hw in Hb. injection Hb as <-.
  change (VInt x) with (of_num (NInt x)) in Hs, Hd.
  change (VInt z) with (of_num (NInt z)) in Hs.
  rewrite short_of_num in Hs. rewrite debit_stored in Hd.
  injection Hs as Hs. injection Hd as <-.
  simpl in Hs. rewrite num_gtb_int in Hs.
  rewrite balance_of_snoc, Hw. simpl.
  eexists. split; [done|]. destruct (0 <? x) eqn:E; lia.
Qed.

Lemma good_num_ge_zero n : good_num n → num_geb n (NInt 0) = true.
Proof.
  destruct n as [z|f]; unfold num_geb; simpl good_num.
  - intros Hz. rewrite num_compare_int.
    destruct (Z.compare_spec z 0); (done || lia).
  - destruct f as [s|s| |s m e]; try done; unfold num_compare;
      cbn [xreal_of xreal_of_float].
    + by intros ->.
    + intros [-> _]. by rewrite dyadic_compare_0_r.
Qed.




(* ===================================================================== *)
(** * Part 8: further properties of the ledger and of the windows        *)
(* ===================================================================== *)

(** ** Deposits, withdrawals and the balance *)

Lemma category_at_append_to (σ : heap) l l' a :
  category_at (append_to σ l a) l' = category_at σ l'.
Proof.
  unfold category_at at 1, append_to.
  destruct (decide (l = l')) as [->|Hne].
  - by rewrite lookup_total_insert_eq.
  - by rewrite lookup_total_insert_ne.
Qed.

Lemma add_revenue_returns self a d t (σ σ' : heap) :
  add_revenue self a d t σ = (Returned tt, σ') →
  py_lt a (VInt 0) = Returned false ∧ σ' = append_to σ self (mkAction a d t).
Proof.
  rewrite add_revenue_unfold.
  by destruct (py_lt a (VInt 0)) as [[]|]; intros [= <-].
Qed.

Lemma add_expense_returns_true self a d t (σ σ' : heap) :
  add_expense self a d t σ = (Returned true, σ') →
  ∃ a' b, is_number a = true
    ∧ balance_of (wallet_at σ self) = Returned b
    ∧ short_of a b = Returned false
    ∧ debit a = Returned a'
    ∧ σ' = append_to σ self (mkAction a' d t).
Proof.
  intros H. destruct (add_expense_effect self a d t σ)
    as [[_ Hne] | (a' & b & Hn & Hb & Hs & Hd & Heq)].
  - by rewrite H in Hne.
  - rewrite H in Heq. injection Heq as ->. by exists a', b.
Qed.

Lemma balance_after_append (σ : heap) self e b :
  balance_of (wallet_at σ self) = Returned b →
  fst (get_balance self (append_to σ self e)) = py_add b (amount e).
Proof.
  intros Hb. rewrite get_balance_unfold, wallet_at_append_eq, balance_of_snoc.
  by rewrite Hb.
Qed.

(** X1: After an accepted deposit the balance is the old balance plus the
    amount, after an accepted withdrawal the old balance plus the stored
    debit; on an int ledger this is exact: a deposit of [z] adds [z], a
    withdrawal of [z] takes [abs(z)] away. *)
Theorem balance_moves_by_the_amount self a d t (σ σ' : heap) b :
  balance_of (wallet_at σ self) = Returned b →
  (add_revenue self a d t σ = (Returned tt, σ') →
     fst (get_balance self σ') = py_add b a
     ∧ ∀ x z, b = VInt x → a = VInt z →
         fst (get_balance self σ') = Returned (VInt (x + z)))
  ∧ (add_expense self a d t σ = (Returned true, σ') →
     (∃ a', debit a = Returned a'
            ∧ fst (get_balance self σ') = py_add b a')
     ∧ ∀ x z, b = VInt x → a = VInt z →
         fst (get_balance self σ') = Returned (VInt (x - Z.abs z))).
Proof.
  intros Hb. split.
  - intros [_ ->]%add_revenue_returns.
    rewrite (balance_after_append _ _ _ b Hb). split; [done|].
    by intros x z -> ->.
  - intros (a' & b' & _ & Hb' & _ & Hd & ->)%add_expense_returns_true.
    rewrite (balance_after_append _ _ _ b Hb). split; [by exists a'|].
    intros x z -> ->. rewrite debit_int in Hd. injection Hd as <-.
    unfold py_add, py_binop. simpl.
    replace (x + (if 0 <? z then z * -1 else z)) with (x - Z.abs z); [done|].
    destruct (0 <? z) eqn:E; lia.
Qed.

Lemma balance_moves_by_the_amount_witness :
  let σ : heap :=
    {[1%positive := mkCategory "Food" [mkAction (VInt 100) "Gift" false]]} in
  fst (get_balance 1%positive
         (append_to σ 1%positive (mkAction (VInt (-30)) "Lunch" false)))
  = Returned (VInt (100 - Z.abs 30)).
Proof.
  intros σ.
  destruct (balance_moves_by_the_amount 1%positive (VInt 30) "Lunch" false σ
              (append_to σ 1%positive (mkAction (VInt (-30)) "Lunch" false))
              (VInt 100) eq_refl) as [_ Hexp].
  destruct (Hexp eq_refl) as [_ Hint].
  exact (Hint 100 30 eq_refl eq_refl).
Defined.

(** X2: A rejected withdrawal can be repeated any number of times: the store
    stays as it was and the answer stays False. *)
Theorem rejected_expense_can_be_repeated self a d t (σ : heap) n :
  fst (add_expense self a d t σ) = Returned false →
  Nat.iter n (λ τ, snd (add_expense self a d t τ)) σ = σ
  ∧ add_expense self a d t
      (Nat.iter n (λ τ, snd (add_expense self a d t τ)) σ)
    = (Returned false, σ).
Proof.
  intros Hf.
  assert (Hσ : snd (add_expense self a d t σ) = σ).
  { destruct (add_expense_effect self a d t σ)
      as [[Hs _] | (a' & b & _ & _ & _ & _ & Heq)]; [done|].
    by rewrite Heq in Hf. }
  assert (Hiter : Nat.iter n (λ τ, snd (add_expense self a d t τ)) σ = σ).
  { induction n as [|n IH]; [done|]. simpl. by rewrite IH. }
  split; [done|]. rewrite Hiter.
  destruct (add_expense self a d t σ) as [r τ]. simpl in *. by subst.
Qed.

Lemma rejected_expense_can_be_repeated_witness :
  let σ : heap := {[1%positive := mkCategory "Auto" []]} in
  Nat.iter 3 (λ τ, snd (add_expense 1%positive (VInt 15) "Tyre Change" false τ))
    σ = σ
  ∧ add_expense 1%positive (VInt 15) "Tyre Change" false
      (Nat.iter 3
         (λ τ, snd (add_expense 1%positive (VInt 15) "Tyre Change" false τ)) σ)
    = (Returned false, σ).
Proof.
  intros σ. apply rejected_expense_can_be_repeated. reflexivity.
Defined.

(** ** The sign of a withdrawal *)

Lemma valid_opp f : is_double f → is_double (SFopp f).
Proof. by destruct f. Qed.

Lemma stored_num_neg y :
  valid_amount (of_num y) → num_eqb y (NInt 0) = false →
  stored_num (num_neg y) = stored_num y.
Proof.
  destruct y as [z|f]; simpl.
  - intros _ _. f_equal.
    destruct (0 <? - z) eqn:E1, (0 <? z) eqn:E2; lia.
  - intros Hv Hnz. f_equal.
    assert (Hgt : ∀ s m e,
      num_gtb (NFloat (S754_finite s m e)) (NInt 0) = negb s).
    { intros s m e. unfold num_gtb, num_compare. simpl xreal_of.
      cbv iota beta. rewrite dyadic_compare_0_r. by destruct s. }
    destruct f as [s|s| |s m e]; try done.
    + by destruct s.
    + cbn [SFopp]. rewrite !Hgt.
      destruct s; cbn [negb]; rewrite fmul_minus_one; by try apply valid_opp.
Qed.

Lemma num_abs_neg y : num_abs (num_neg y) = num_abs y.
Proof. destruct y as [z|f]; simpl; [by rewrite Z.abs_opp | by destruct f]. Qed.

(** X3: [add_expense] only looks at the magnitude: for a number other than
    zero, [add_expense(-a)] does exactly what [add_expense(a)] does. *)
Theorem add_expense_ignores_sign self a a' d t (σ : heap) :
  is_number a = true →
  valid_amount a →
  py_eq a (VInt 0) = false →
  py_neg a = Returned a' →
  add_expense self a' d t σ = add_expense self a d t σ.
Proof.
  intros Hn Hv Hnz Hneg.
  destruct (is_number_as_num a Hn) as (y & Hy & ->).
  unfold py_neg in Hneg. rewrite as_num_of_num in Hneg. injection Hneg as <-.
  assert (Hnz' : num_eqb y (NInt 0) = false) by (by destruct y).
  rewrite !add_expense_unfold.
  replace (is_number (of_num (num_neg y))) with true by (by destruct y).
  rewrite Hn. rewrite !debit_stored, stored_num_neg by done.
  unfold short_of, py_abs. rewrite !as_num_of_num. by rewrite num_abs_neg.
Qed.

Lemma add_expense_ignores_sign_witness :
  add_expense 1%positive (VInt (-30)) "Lunch" false
    {[1%positive := mkCategory "Food" [mkAction (VInt 100) "Gift" false]]}
  = add_expense 1%positive (VInt 30) "Lunch" false
      {[1%positive := mkCategory "Food" [mkAction (VInt 100) "Gift" false]]}.
Proof.
  apply add_expense_ignores_sign; reflexivity.
Defined.

(** ** An empty category *)

Lemma short_of_zero_balance y :
  short_of (of_num y) (VInt 0)
  = Returned (match y with
              | NFloat S754_nan => false
              | _ => negb (num_eqb y (NInt 0))
              end).
Proof.
  change (VInt 0) with (of_num (NInt 0)). rewrite short_of_num. f_equal.
  destruct y as [z|f].
  - simpl num_abs. rewrite num_gtb_int. unfold num_eqb.
    rewrite num_compare_int.
    destruct (Z.compare_spec z 0), (Z.ltb_spec 0 (Z.abs z)); (done || lia).
  - destruct f as [s|s| |s m e]; try done.
    + by destruct s.
    + unfold num_gtb, num_eqb, num_compare. simpl xreal_of. cbv iota beta.
      rewrite !dyadic_compare_0_r. by destruct s.
Qed.

(** X4: On a category with no entry, [add_expense] returns False for every
    number other than zero and NaN, leaving the wallet empty; an amount of
    zero is accepted and recorded. *)
Theorem expense_on_empty_category self a d t (σ : heap) :
  wallet_at σ self = [] →
  is_number a = true →
  (py_eq a (VInt 0) = true →
     add_expense self a d t σ
     = (Returned true, append_to σ self (mkAction a d t)))
  ∧ (py_eq a (VInt 0) = false → a ≠ VFloat S754_nan →
     add_expense self a d t σ = (Returned false, σ)).
Proof.
  intros Hw Hn. destruct (is_number_as_num a Hn) as (y & Hy & ->).
  assert (Hb : balance_of (wallet_at σ self) = Returned (VInt 0))
    by (by rewrite Hw).
  pose proof (short_of_zero_balance y) as Hs.
  assert (Heq : py_eq (of_num y) (VInt 0) = num_eqb y (NInt 0))
    by (by destruct y).
  rewrite Heq. split.
  - intros Hz.
    apply add_expense_accepted with (VInt 0); try done.
    + rewrite Hs. f_equal. destruct y as [|[]]; by rewrite ?Hz.
    + rewrite debit_stored. do 2 f_equal. destruct y as [z|f]; simpl.
      * unfold num_eqb in Hz. rewrite num_compare_int in Hz.
        destruct (Z.compare_spec z 0); try done. by subst.
      * destruct f as [s|s| |s m e]; try done.
        -- by destruct s.
        -- unfold num_eqb, num_compare in Hz. simpl xreal_of in Hz.
           cbv iota beta in Hz. rewrite dyadic_compare_0_r in Hz.
           by destruct s.
  - intros Hz Hnan.
    apply add_expense_rejected with (VInt 0); try done.
    rewrite Hs. f_equal. destruct y as [|[]]; by rewrite ?Hz.
Qed.

Lemma expense_on_empty_category_witness :
  let σ : heap := {[1%positive := mkCategory "Auto" []]} in
  (py_eq (VInt 15) (VInt 0) = true →
     add_expense 1%positive (VInt 15) "Tyre Change" false σ
     = (Returned true,
        append_to σ 1%positive (mkAction (VInt 15) "Tyre Change" false)))
  ∧ (py_eq (VInt 15) (VInt 0) = false → VInt 15 ≠ VFloat S754_nan →
     add_expense 1%positive (VInt 15) "Tyre Change" false σ
     = (Returned false, σ)).
Proof.
  intros σ. apply expense_on_empty_category; reflexivity.
Defined.

(** ** More on transfers *)

Lemma short_of_int z b :
  short_of (VInt z) (VInt b) = Returned (b <? Z.abs z).
Proof.
  change (VInt z) with (of_num (NInt z)).
  change (VInt b) with (of_num (NInt b)).
  rewrite short_of_num. simpl. by rewrite num_gtb_int.
Qed.

Lemma py_lt_int z : py_lt (VInt z) (VInt 0) = Returned (z <? 0).
Proof. erewrite py_lt_num by reflexivity. by rewrite num_ltb_int. Qed.

Lemma py_add_int x y : py_add (VInt x) (VInt y) = Returned (VInt (x + y)).
Proof. reflexivity. Qed.

Lemma balance_of_snoc_int w e x y :
  balance_of w = Returned (VInt x) → amount e = VInt y →
  balance_of (w ++ [e]) = Returned (VInt (x + y)).
Proof. intros Hw He. by rewrite balance_of_snoc, Hw, He. Qed.

(** What a transfer of an int amount does on an int balance. *)
Lemma transfer_money_int self z tgt b (σ : heap) :
  balance_of (wallet_at σ self) = Returned (VInt b) →
  transfer_money self (VInt z) (Ref tgt) σ =
  if b <? Z.abs z then (Returned false, σ)
  else
    let σ1 := append_to σ self
                (mkAction (VInt (- Z.abs z))
                   ("Send money to " +:+ category_at σ tgt) true) in
    if z <? 0 then (Raised (deposit_error (category_at σ tgt)), σ1)
    else (Returned true,
          append_to σ1 tgt
            (mkAction (VInt z)
               ("Send money from " +:+ category_at σ self) true)).
Proof.
  intros Hb. rewrite transfer_money_unfold, add_expense_unfold.
  change (is_number (VInt z)) with true. cbv iota. rewrite Hb.
  unfold mbind at 1, result_mbind, result_bind.
  rewrite short_of_int, debit_int.
  destruct (b <? Z.abs z); [done|].
  replace (if 0 <? z then z * -1 else z) with (- Z.abs z)
    by (destruct (0 <? z) eqn:E; lia).
  cbv beta iota zeta.
  rewrite add_revenue_unfold, py_lt_int, !category_at_append_to.
  by destruct (z <? 0).
Qed.

(** X5: Between two distinct categories with int balances, a transfer that
    returns True moves exactly the amount: the source balance goes down by
    it, the target balance goes up by it, and their sum is what it was. *)
Theorem transfer_conserves_money src tgt z bs bt (σ σ' : heap) :
  src ≠ tgt →
  balance_of (wallet_at σ src) = Returned (VInt bs) →
  balance_of (wallet_at σ tgt) = Returned (VInt bt) →
  transfer_money src (VInt z) (Ref tgt) σ = (Returned true, σ') →
  0 ≤ z ≤ bs
  ∧ fst (get_balance src σ') = Returned (VInt (bs - z))
  ∧ fst (get_balance tgt σ') = Returned (VInt (bt + z)).
Proof.
  intros Hne Hs Ht. rewrite (transfer_money_int _ _ _ bs) by done.
  destruct (Z.ltb_spec bs (Z.abs z)); [done|]. cbv zeta.
  destruct (Z.ltb_spec z 0); [done|]. intros [= <-].
  split; [lia|]. rewrite !get_balance_unfold. simpl fst. split.
  - rewrite wallet_at_append_ne, wallet_at_append_eq by done.
    erewrite balance_of_snoc_int by done. do 2 f_equal. lia.
  - rewrite wallet_at_append_eq, wallet_at_append_ne by done.
    by erewrite balance_of_snoc_int.
Qed.

Lemma transfer_conserves_money_witness :
  let σ : heap :=
    {[1%positive := mkCategory "Income" [mkAction (VInt 4512) "Net" false];
      2%positive := mkCategory "Food" [mkAction (VInt 7) "Change" false]]} in
  let σ' := snd (transfer_money 1%positive (VInt 1000) (Ref 2%positive) σ) in
  0 ≤ 1000 ≤ 4512
  ∧ fst (get_balance 1%positive σ') = Returned (VInt (4512 - 1000))
  ∧ fst (get_balance 2%positive σ') = Returned (VInt (7 + 1000)).
Proof.
  intros σ σ'.
  apply (transfer_conserves_money 1%positive 2%positive 1000 4512 7 σ σ').
  - discriminate.
  - reflexivity.
  - reflexivity.
  - reflexivity.
Defined.

Lemma num_ltb_not_gtb y n : num_ltb y n = true → num_gtb y n = false.
Proof. unfold num_ltb, num_gtb. by destruct (num_compare y n) as [[]|]. Qed.

(** X6: A transfer of an amount below zero that the source can cover is not
    undone: the debit is appended to the source, then [add_revenue] on the
    target raises, and the call ends with that Exception and the source
    already debited. *)
Theorem negative_transfer_debits_then_raises self a tgt b (σ : heap) :
  is_number a = true →
  py_lt a (VInt 0) = Returned true →
  balance_of (wallet_at σ self) = Returned b →
  short_of a b = Returned false →
  transfer_money self a (Ref tgt) σ
  = (Raised (deposit_error (category_at σ tgt)),
     append_to σ self
       (mkAction a ("Send money to " +:+ category_at σ tgt) true)).
Proof.
  intros Hn Hneg Hb Hs. rewrite transfer_money_unfold, Hn.
  assert (Hd : debit a = Returned a).
  { destruct (is_number_as_num a Hn) as (y & Hy & ->).
    rewrite debit_stored. do 2 f_equal.
    erewrite py_lt_num in Hneg by (done || apply as_num_of_num).
    injection Hneg as Hneg.
    destruct y as [z|f]; simpl.
    - rewrite num_ltb_int in Hneg. f_equal. destruct (0 <? z) eqn:E; lia.
    - by rewrite (num_ltb_not_gtb _ _ Hneg). }
  rewrite (add_expense_accepted _ _ _ _ _ b a) by done.
  by rewrite add_revenue_unfold, Hneg, category_at_append_to.
Qed.

Lemma negative_transfer_debits_then_raises_witness :
  let σ : heap :=
    {[1%positive := mkCategory "Income" [mkAction (VInt 100) "Net" false];
      2%positive := mkCategory "Food" []]} in
  transfer_money 1%positive (VInt (-5)) (Ref 2%positive) σ
  = (Raised (deposit_error (category_at σ 2%positive)),
     append_to σ 1%positive
       (mkAction (VInt (-5)) ("Send money to " +:+ category_at σ 2%positive)
          true)).
Proof.
  intros σ.
  apply (negative_transfer_debits_then_raises _ _ _ (VInt 100)); reflexivity.
Defined.

(** X7: A transfer from a category to itself, of an int amount its int balance
    covers, returns True and appends the debit and then the credit to the
    one wallet; the balance is what it was. *)
Theorem transfer_to_itself self z b (σ : heap) :
  balance_of (wallet_at σ self) = Returned (VInt b) →
  0 ≤ z ≤ b →
  ∃ σ' : heap,
    transfer_money self (VInt z) (Ref self) σ = (Returned true, σ')
    ∧ wallet_at σ' self
      = wallet_at σ self
        ++ [mkAction (VInt (- z))
              ("Send money to " +:+ category_at σ self) true;
            mkAction (VInt z)
              ("Send money from " +:+ category_at σ self) true]
    ∧ fst (get_balance self σ') = Returned (VInt b).
Proof.
  intros Hb Hz. rewrite (transfer_money_int _ _ _ b) by done.
  destruct (Z.ltb_spec b (Z.abs z)); [lia|]. cbv zeta.
  destruct (Z.ltb_spec z 0); [lia|].
  eexists. split; [done|].
  replace (Z.abs z) with z by lia.
  assert (Hw : ∀ e1 e2,
    wallet_at (append_to (append_to σ self e1) self e2) self
    = (wallet_at σ self ++ [e1]) ++ [e2]).
  { intros. by rewrite !wallet_at_append_eq. }
  split; [by rewrite Hw, <- app_assoc|].
  rewrite get_balance_unfold, Hw. simpl fst.
  erewrite balance_of_snoc_int; [|by erewrite balance_of_snoc_int|done].
  do 2 f_equal. lia.
Qed.

Lemma transfer_to_itself_witness :
  let σ : heap :=
    {[1%positive := mkCategory "Food" [mkAction (VInt 100) "Gift" false]]} in
  ∃ σ' : heap,
    transfer_money 1%positive (VInt 40) (Ref 1%positive) σ = (Returned true, σ')
    ∧ wallet_at σ' 1%positive
      = wallet_at σ 1%positive
        ++ [mkAction (VInt (- 40))
              ("Send money to " +:+ category_at σ 1%positive) true;
            mkAction (VInt 40)
              ("Send money from " +:+ category_at σ 1%positive) true]
    ∧ fst (get_balance 1%positive σ') = Returned (VInt 100).
Proof.
  intros σ. apply transfer_to_itself; [reflexivity | lia].
Defined.

(** ** The expense total *)

Lemma for_each_invariant {A S} (P : S → Prop) (body : S → A → result S)
    l s r :
  P s → (∀ s x s', P s → x ∈ l → body s x = Returned s' → P s') →
  for_each body l s = Returned r → P r.
Proof.
  revert s. induction l as [|x l IH]; intros s Hs Hstep; simpl.
  - by intros [= <-].
  - unfold mbind, result_mbind, result_bind.
    destruct (body s x) as [s'|] eqn:Hb; [|done].
    apply IH.
    + apply (Hstep s x); [done|left|done].
    + intros s1 y s2 H1 Hy. apply Hstep; [done|by right].
Qed.

Lemma py_add_float t a r :
  py_add (VFloat t) a = Returned r → ∃ f, r = VFloat f.
Proof.
  unfold py_add, py_binop. simpl as_num.
  destruct (as_num a) as [[z|g]|]; simpl; [| |done].
  - unfold mbind, result_mbind, result_bind, fmap, result_fmap, result_bind.
    destruct (float_of_Z z); intros [= <-]; eauto.
  - intros [= <-]; eauto.
Qed.

(** X8: [get_expense_total] returns a float whenever it returns: the branch
    that would turn an int total into a string ending in ".00" is never
    taken. *)
Theorem expense_total_is_a_float w v :
  expense_total_of w = Returned v → ∃ f, v = VFloat f.
Proof.
  unfold expense_total_of.
  destruct (for_each _ w _) as [total|] eqn:Hloop; [|done].
  assert (Ht : ∃ t, total = VFloat t).
  { revert Hloop.
    apply (for_each_invariant (λ r, ∃ t, r = VFloat t)); [eauto|].
    intros s e s' [t ->] _.
    destruct (transfer e); [intros [= <-]; eauto|].
    unfold mbind, result_mbind, result_bind.
    destruct (py_lt (amount e) (VInt 0)) as [[]|]; [|intros [= <-]; eauto|done].
    destruct (py_mul (amount e) (VInt (-1))) as [spent|]; [|done].
    apply py_add_float. }
  destruct Ht as [t ->]. unfold mbind, result_mbind, result_bind. simpl.
  intros [= <-]. eauto.
Qed.

Lemma expense_total_is_a_float_witness :
  ∃ f, VFloat (decimal 4087 2) = VFloat f.
Proof.
  apply (expense_total_is_a_float
           [mkAction (VInt 50) "Send money from Food" true;
            mkAction (VFloat (decimal (-3072) 2)) "Chili's" false;
            mkAction (VFloat (decimal (-1015) 2)) "Walmart" false]).
  vm_compute. reflexivity.
Defined.

Lemma py_mul_int_minus_one z :
  py_mul (VInt z) (VInt (-1)) = Returned (VInt (z * -1)).
Proof. reflexivity. Qed.

Lemma py_mul_float_minus_one f :
  py_mul (VFloat f) (VInt (-1)) = Returned (VFloat (fmul f minus_one)).
Proof.
  unfold py_mul, py_binop; simpl as_num. unfold num_mul.
  by rewrite float_of_Z_minus_one.
Qed.

Lemma py_add_float_int t x :
  py_add (VFloat t) (VInt x)
  = match float_of_Z x with
    | Returned g => Returned (VFloat (fadd t g))
    | Raised e => Raised e
    end.
Proof.
  unfold py_add, py_binop; simpl as_num. unfold num_add.
  by destruct (float_of_Z x).
Qed.

Lemma div_eucl_nonneg a b : 0 ≤ a → 0 < b → 0 ≤ fst (Z.div_eucl a b).
Proof.
  intros Ha Hb. pose proof (Z.div_pos a b Ha Hb) as H.
  unfold Z.div in H. by destruct (Z.div_eucl a b).
Qed.

Lemma fdiv_nonneg n d :
  nonneg_float (fdiv (S754_finite false n 0) (S754_finite false d 0)).
Proof.
  unfold fdiv, SFdiv, SFdiv_core_binary. cbv zeta.
  set (s := 0 - 0 - _).
  set (m' := match s with Zpos _ => Z.shiftl (Zpos n) s | 0 => Zpos n
             | Zneg _ => 0 end).
  assert (Hm : 0 ≤ m').
  { unfold m'. destruct s; [lia| |lia]. apply Z.shiftl_nonneg. lia. }
  pose proof (div_eucl_nonneg m' (Zpos d) Hm ltac:(lia)) as Hq.
  destruct (Z.div_eucl m' (Zpos d)) as [q r]. simpl in Hq.
  by apply binary_round_aux_nonneg.
Qed.

Lemma float_round2_nonneg f : nonneg_float f → nonneg_float (float_round2 f).
Proof.
  destruct f as [s|s| |s m e]; try done. intros [-> Hm].
  unfold float_round2. destruct (0 <=? e); [done|].
  destruct (round_half_even_shift _ _); try done. apply fdiv_nonneg.
Qed.

Lemma finite_double_opp f : finite_double (SFopp f) = finite_double f.
Proof. by destruct f. Qed.

Lemma stored_num_finite y :
  finite_amount (of_num y) = true → finite_amount (of_num (stored_num y)) = true.
Proof.
  destruct y as [z|f]; simpl; [done|]. intros Hf.
  destruct (num_gtb (NFloat f) (NInt 0)); [|done].
  rewrite fmul_minus_one, finite_double_opp; [done|].
  unfold finite_double in Hf. by apply andb_true_iff in Hf as [? _].
Qed.

Lemma finite_entries_credit w a d t :
  finite_entries w → finite_amount a = true →
  py_lt a (VInt 0) = Returned false →
  finite_entries (w ++ [mkAction a d t]).
Proof.
  intros Hw Ha Hlt. apply Forall_app. split; [done|].
  constructor; [|done]. split; [done|].
  destruct (py_lt_zero_num a Hlt) as (y & Hy & _). eauto.
Qed.

Lemma finite_entries_debit w a a' b d t :
  finite_entries w → finite_amount a = true → is_number a = true →
  balance_of w = Returned b → short_of a b = Returned false →
  debit a = Returned a' →
  finite_entries (w ++ [mkAction a' d t]).
Proof.
  intros Hw Ha Hn _ _ Hd. apply Forall_app. split; [done|].
  constructor; [|done].
  destruct (is_number_as_num a Hn) as (y & Hy & ->).
  rewrite debit_stored in Hd. injection Hd as <-. simpl. split.
  - by apply stored_num_finite.
  - exists (stored_num y). apply as_num_of_num.
Qed.

Lemma expense_total_of_finite w :
  finite_entries w →
  expense_total_of w = Raised OverflowError
  ∨ ∃ f, expense_total_of w = Returned (VFloat f) ∧ nonneg_float f.
Proof.
  intros Hw. unfold expense_total_of.
  set (body := λ total action, _).
  assert (Hloop : ∀ t, nonneg_float t →
    for_each body w (VFloat t) = Raised OverflowError
    ∨ ∃ t', for_each body w (VFloat t) = Returned (VFloat t')
            ∧ nonneg_float t').
  { induction Hw as [|e w [He (y & Hy)] _ IH]; intros t Ht; simpl.
    - right. eauto.
    - unfold mbind at 1, result_mbind, result_bind.
      assert (Hstep : body (VFloat t) e = Raised OverflowError
                ∨ ∃ t', body (VFloat t) e = Returned (VFloat t')
                        ∧ nonneg_float t').
      { unfold body. destruct (transfer e); [right; eauto|].
        erewrite py_lt_num by (done || reflexivity).
        unfold mbind, result_mbind, result_bind.
        destruct (num_ltb y (NInt 0)) eqn:Hneg; [|right; eauto].
        assert (Ha : amount e = of_num y).
        { destruct (amount e) as [|[]| | |]; try done; simpl in He, Hy;
            injection Hy as <-; try done.
          all: by rewrite num_ltb_int in Hneg. }
        rewrite Ha. destruct y as [z|f]; simpl of_num.
        - rewrite py_mul_int_minus_one, py_add_float_int.
          rewrite num_ltb_int in Hneg.
          destruct (float_of_Z (z * -1)) as [g|ex] eqn:Hg.
          + right. eexists. split; [done|].
            apply fadd_nonneg; [done|].
            apply (float_of_Z_nonneg (z * -1)); [lia|done].
          + left. by rewrite (float_of_Z_raises _ _ Hg).
        - rewrite py_mul_float_minus_one.
          change (py_add (VFloat t) (VFloat (fmul f minus_one)))
            with (Returned (VFloat (fadd t (fmul f minus_one)))).
          right. eexists. split; [done|].
          apply fadd_nonneg; [done|].
          assert (Hf : finite_double f = true) by (by rewrite Ha in He).
          unfold finite_double in Hf. apply andb_true_iff in Hf as [Hv Hfin].
          rewrite fmul_minus_one by done.
          destruct f as [s|s| |s m e']; try done.
          destruct (is_double_finite _ _ _ Hv) as (_ & _ & Hm).
          unfold num_ltb, num_compare in Hneg. simpl xreal_of in Hneg.
          cbv iota beta in Hneg. rewrite dyadic_compare_0_r in Hneg.
          by destruct s. }
      destruct Hstep as [-> | (t' & -> & Ht')]; [by left|]. by apply IH. }
  destruct (Hloop (S754_zero false) I) as [-> | (t & -> & Ht)]; [by left|].
  right. exists (float_round2 t). split; [done|]. by apply float_round2_nonneg.
Qed.

(** X9: After any sequence of calls with finite amounts, starting from empty
    categories, [get_expense_total()] of every category returns a float that
    is [>= 0], unless it raises OverflowError (an int debit too large for a
    float). *)
Theorem expense_total_never_negative cs (σ0 : heap) l :
  (∀ l, wallet_at σ0 l = []) →
  Forall (λ c, finite_amount (call_amount c) = true) cs →
  fst (get_expense_total l (run_calls cs σ0)) = Raised OverflowError
  ∨ ∃ f, fst (get_expense_total l (run_calls cs σ0)) = Returned (VFloat f)
         ∧ py_ge (VFloat f) (VInt 0) = Returned true.
Proof.
  intros Hempty Hfin. rewrite get_expense_total_unfold. simpl fst.
  assert (H : holds_everywhere finite_entries (run_calls cs σ0)).
  { apply run_calls_preserve with (λ a, finite_amount a = true).
    - intros; by apply finite_entries_credit.
    - intros; by eapply finite_entries_debit.
    - done.
    - intros l'. rewrite Hempty. constructor. }
  destruct (expense_total_of_finite _ (H l)) as [Hr | (f & Hr & Hf)];
    [by left|].
  right. exists f. split; [done|].
  unfold py_ge, py_binop. simpl. f_equal.
  by apply (good_num_ge_zero (NFloat f)).
Qed.

Lemma expense_total_never_negative_witness :
  let cs :=
    [AddRevenue 1%positive (VInt 50) "Allowance" false;
     AddExpense 1%positive (VFloat (decimal 3072 2)) "Chili's" false;
     AddExpense 1%positive (VFloat (decimal 1015 2)) "Walmart" false] in
  fst (get_expense_total 1%positive (run_calls cs ∅)) = Raised OverflowError
  ∨ ∃ f, fst (get_expense_total 1%positive (run_calls cs ∅))
         = Returned (VFloat f)
         ∧ py_ge (VFloat f) (VInt 0) = Returned true.
Proof.
  intros cs. apply expense_total_never_negative.
  - intros l. unfold wallet_at. rewrite lookup_total_empty. reflexivity.
  - repeat (constructor; [vm_compute; reflexivity|]). constructor.
Defined.

(** ** The registry of categories *)

Lemma add_category_cases lower title
    (_categories _categories' : gmap string loc) name ok (σ σ' : heap) :
  _add_category lower title _categories name σ
  = (Returned (ok, _categories'), σ') →
  (ok = false ∧ clashes lower _categories name
   ∧ _categories' = _categories ∧ σ' = σ)
  ∨ (ok = true ∧ ¬ clashes lower _categories name
     ∧ σ !! fresh (dom σ) = None
     ∧ _categories' = <[title name := fresh (dom σ)]> _categories
     ∧ σ' = <[fresh (dom σ) := mkCategory (title name) []]> σ).
Proof.
  unfold _add_category.
  destruct (name_taken lower _categories name) eqn:Ht.
  - intros [= <- <- <-]. left. repeat split; try done.
    by apply name_taken_clashes.
  - intros [= <- <- <-]. right.
    assert (Hno : ¬ clashes lower _categories name).
    { rewrite <- name_taken_clashes. by rewrite Ht. }
    repeat split; try done.
    apply not_elem_of_dom, is_fresh.
Qed.

(** A name that no key clashes with, and that its title-cased form equals
    up to case, has a title-cased form that is no key. *)
Lemma title_is_new lower title (_categories : gmap string loc) name :
  lower (title name) = lower name → ¬ clashes lower _categories name →
  _categories !! title name = None.
Proof.
  intros Hl Hno. destruct (_categories !! title name) as [c|] eqn:Hk; [|done].
  destruct Hno. by exists (title name), c.
Qed.

(** X10: For a name that its title-cased form equals up to case (every
    ASCII name is one), [_add_category] keeps the keys unique up to case:
    if no two keys of the dict are equal up to case before the call, none
    are after it, whether the call adds a category or refuses. *)
Theorem add_category_keeps_names_unique (lower title : string → string)
    (_categories _categories' : gmap string loc) name ok (σ σ' : heap) :
  lower (title name) = lower name →
  case_unique lower _categories →
  _add_category lower title _categories name σ
  = (Returned (ok, _categories'), σ') →
  case_unique lower _categories'.
Proof.
  intros Hlt Hu H.
  destruct (add_category_cases _ _ _ _ _ _ _ _ H)
    as [(_ & _ & -> & _) | (_ & Hno & _ & -> & _)]; [done|].
  intros k1 k2 [c1 H1] [c2 H2] Hl.
  destruct (decide (title name = k1)) as [<-|Hn1],
           (decide (title name = k2)) as [<-|Hn2]; try done.
  - rewrite lookup_insert_ne in H2 by done. destruct Hno.
    exists k2, c2. split; [done|]. by rewrite <- Hl, Hlt.
  - rewrite lookup_insert_ne in H1 by done. destruct Hno.
    exists k1, c1. split; [done|]. by rewrite Hl, Hlt.
  - rewrite lookup_insert_ne in H1, H2 by done. apply Hu; eauto.
Qed.

Lemma add_category_keeps_names_unique_witness :
  case_unique ascii_lower (<["Food" := 1%positive]> ∅).
Proof.
  apply (add_category_keeps_names_unique ascii_lower ascii_title ∅ _
           "food" true ∅ (<[1%positive := mkCategory "Food" []]> ∅)).
  - reflexivity.
  - intros k1 k2 [c Hc]. by rewrite lookup_empty in Hc.
  - reflexivity.
Defined.

(** X11: Once a category has been created under a name that its
    title-cased form equals up to case (every ASCII name is one), creating
    one under any name equal to it up to case is refused and changes
    nothing. *)
Theorem add_category_twice (lower title : string → string)
    (_categories _categories' : gmap string loc) name name' (σ σ' : heap) :
  lower (title name) = lower name →
  _add_category lower title _categories name σ
  = (Returned (true, _categories'), σ') →
  lower name' = lower name →
  _add_category lower title _categories' name' σ'
  = (Returned (false, _categories'), σ').
Proof.
  intros Hlt H Hl.
  destruct (add_category_cases _ _ _ _ _ _ _ _ H)
    as [(? & _) | (_ & _ & _ & -> & _)]; [done|].
  unfold _add_category.
  replace (name_taken lower _ name') with true; [done|].
  symmetry. apply name_taken_clashes.
  exists (title name), (fresh (dom σ)). split; [apply lookup_insert_eq|].
  by rewrite Hlt.
Qed.

Lemma add_category_twice_witness :
  _add_category ascii_lower ascii_title
    (<["New Car" := 1%positive]> ∅) "NEW CAR"
    (<[1%positive := mkCategory "New Car" []]> ∅)
  = (Returned (false, <["New Car" := 1%positive]> ∅),
     <[1%positive := mkCategory "New Car" []]> ∅).
Proof.
  apply (add_category_twice ascii_lower ascii_title ∅ _ "new car" "NEW CAR"
           ∅); reflexivity.
Defined.

(** X12: [_add_category] leaves the categories that exist alone: every
    Category object keeps its name, its wallet and hence its balance and
    its expense total, and every key other than the title-cased name keeps
    its category; so does every key, when the title-cased name equals the
    name up to case (as every ASCII name does). *)
Theorem add_category_frame (lower title : string → string)
    (_categories _categories' : gmap string loc) name ok (σ σ' : heap) :
  _add_category lower title _categories name σ
  = (Returned (ok, _categories'), σ') →
  (∀ k c, _categories !! k = Some c → k ≠ title name →
          _categories' !! k = Some c)
  ∧ (lower (title name) = lower name →
     ∀ k c, _categories !! k = Some c → _categories' !! k = Some c)
  ∧ (∀ l c, σ !! l = Some c →
       σ' !! l = Some c
       ∧ fst (get_balance l σ') = fst (get_balance l σ)
       ∧ fst (get_expense_total l σ') = fst (get_expense_total l σ)).
Proof.
  intros H.
  destruct (add_category_cases _ _ _ _ _ _ _ _ H)
    as [(_ & _ & -> & ->) | (_ & Hno & Hl & -> & ->)]; [done|].
  split; [|split].
  - intros k c Hc Hne. by rewrite lookup_insert_ne.
  - intros Hlt k c Hc. rewrite lookup_insert_ne; [done|].
    intros <-. by rewrite (title_is_new lower title _ name Hlt Hno) in Hc.
  - intros l c Hc.
    assert (Hne : fresh (dom σ) ≠ l) by (intros <-; by rewrite Hl in Hc).
    rewrite get_balance_unfold, get_expense_total_unfold,
      !get_balance_unfold, !get_expense_total_unfold.
    unfold wallet_at. rewrite lookup_total_insert_ne by done.
    by rewrite lookup_insert_ne.
Qed.

Lemma add_category_frame_witness :
  let _categories : gmap string loc := <["Food" := 1%positive]> ∅ in
  let σ : heap :=
    <[1%positive := mkCategory "Food" [mkAction (VInt 100) "Gift" false]]> ∅ in
  let _categories' := <["Auto" := 2%positive]> _categories in
  let σ' : heap := <[2%positive := mkCategory "Auto" []]> σ in
  (∀ k c, _categories !! k = Some c → k ≠ ascii_title "auto" →
          _categories' !! k = Some c)
  ∧ (ascii_lower (ascii_title "auto") = ascii_lower "auto" →
     ∀ k c, _categories !! k = Some c → _categories' !! k = Some c)
  ∧ (∀ l c, σ !! l = Some c →
       σ' !! l = Some c
       ∧ fst (get_balance l σ') = fst (get_balance l σ)
       ∧ fst (get_expense_total l σ') = fst (get_expense_total l σ)).
Proof.
  intros _categories σ _categories' σ'.
  apply (add_category_frame ascii_lower ascii_title _categories _categories'
           "auto" true σ σ').
  vm_compute. reflexivity.
Defined.

(** ** The dict of the main window *)

Lemma od_get_set_eq d key v : od_get (od_set d key v) key = Some v.
Proof.
  induction d as [|[k v'] d IH]; simpl.
  - by rewrite decide_True.
  - destruct (decide (k = key)) as [->|Hne]; simpl.
    + by rewrite decide_True.
    + by rewrite decide_False.
Qed.

Lemma od_get_set_ne d key key' v :
  key ≠ key' → od_get (od_set d key v) key' = od_get d key'.
Proof.
  intros Hne. induction d as [|[k v'] d IH]; simpl.
  - by rewrite decide_False.
  - destruct (decide (k = key)) as [->|Hk]; simpl.
    + by rewrite !decide_False.
    + destruct (decide (k = key')); [done|apply IH].
Qed.

Lemma od_set_keys d key v :
  (od_set d key v).*1 = if decide (key ∈ d.*1) then d.*1 else d.*1 ++ [key].
Proof.
  induction d as [|[k v'] d IH]; cbn [od_set].
  - destruct (decide (key ∈ ([] : list (string * loc)).*1)) as [Hin|_];
      [|done]. by apply elem_of_nil in Hin.
  - destruct (decide (k = key)) as [->|Hk].
    + destruct (decide (key ∈ ((key, v') :: d).*1)) as [_|Hn]; [done|].
      destruct Hn. left.
    + rewrite fmap_cons, IH. cbn [fst].
      destruct (decide (key ∈ d.*1)) as [Hin|Hin];
        destruct (decide (key ∈ ((k, v') :: d).*1)) as [Hin'|Hin']; try done.
      * destruct Hin'. by right.
      * apply elem_of_cons in Hin' as [?|?]; [by destruct Hk|done].
Qed.

Lemma od_set_NoDup d key v : NoDup d.*1 → NoDup (od_set d key v).*1.
Proof.
  intros Hd. rewrite od_set_keys. destruct (decide (key ∈ d.*1)); [done|].
  apply NoDup_app. split; [done|]. split; [|apply NoDup_singleton].
  intros x Hx Hx'. apply list_elem_of_singleton in Hx' as ->. done.
Qed.

Lemma createCategories_loop_get cs d (σ : heap) key :
  od_get (_createCategories_loop cs d σ) key
  = match last (filter (λ c, category_at σ c = key) cs) with
    | Some c => Some c
    | None => od_get d key
    end.
Proof.
  revert d. induction cs as [|c cs IH]; intros d; simpl; [done|].
  rewrite IH, filter_cons.
  destruct (decide (category_at σ c = key)) as [<-|Hne].
  - rewrite last_cons, od_get_set_eq. by destruct (last _).
  - by rewrite od_get_set_ne.
Qed.

Lemma createCategories_loop_keys cs d (σ : heap) :
  NoDup d.*1 →
  NoDup (_createCategories_loop cs d σ).*1
  ∧ ∀ key, key ∈ (_createCategories_loop cs d σ).*1
           ↔ key ∈ d.*1 ∨ ∃ c, c ∈ cs ∧ category_at σ c = key.
Proof.
  revert d. induction cs as [|c cs IH]; intros d Hd; simpl.
  - split; [done|]. intros key. split; [by left|].
    intros [?|(c & Hc & _)]; [done|]. by apply elem_of_nil in Hc.
  - destruct (IH _ (od_set_NoDup d (category_at σ c) c Hd)) as [Hnd Hkeys].
    split; [done|]. intros key. rewrite Hkeys, od_set_keys. split.
    + intros [Hin | (c' & Hc' & Hn)].
      * destruct (decide (category_at σ c ∈ d.*1)); [by left|].
        apply elem_of_app in Hin as [?|Hin]; [by left|].
        apply list_elem_of_singleton in Hin as ->.
        right. exists c. split; [left|done].
      * right. exists c'. split; [by right|done].
    + intros [Hin | (c' & Hc' & Hn)];
        [|apply elem_of_cons in Hc' as [->|Hc']].
      * left. destruct (decide (category_at σ c ∈ d.*1)); [done|].
        apply elem_of_app. by left.
      * left. subst key. destruct (decide (category_at σ c ∈ d.*1)); [done|].
        apply elem_of_app. right. by apply list_elem_of_singleton.
      * right. eauto.
Qed.

(** X13: [_createCategories] files every listed category under its name, and of
    several categories with one name the last one wins: looking a name up
    gives the last listed category of that name, and nothing for a name no
    listed category has.  No key appears twice. *)
Theorem createCategories_last_wins cs (σ : heap) key :
  od_get (_createCategories cs σ) key
  = last (filter (λ c, category_at σ c = key) cs)
  ∧ NoDup (_createCategories cs σ).*1
  ∧ (key ∈ (_createCategories cs σ).*1
     ↔ ∃ c, c ∈ cs ∧ category_at σ c = key).
Proof.
  unfold _createCategories. split; [|split].
  - rewrite createCategories_loop_get. by destruct (last _).
  - apply createCategories_loop_keys. constructor.
  - destruct (createCategories_loop_keys cs [] σ) as [_ ->]; [constructor|].
    split; [|by right]. intros [Hin|?]; [|done]. by apply elem_of_nil in Hin.
Qed.

(** X14: When the listed categories have distinct names, the dict is the list
    itself, in its order, each category under its own name. *)
Theorem createCategories_distinct_names cs (σ : heap) :
  NoDup (category_at σ <$> cs) →
  _createCategories cs σ = (λ c, (category_at σ c, c)) <$> cs.
Proof.
  unfold _createCategories.
  assert (H : ∀ d, NoDup (d.*1 ++ (category_at σ <$> cs)) →
    _createCategories_loop cs d σ = d ++ ((λ c, (category_at σ c, c)) <$> cs)).
  { induction cs as [|c cs IH]; intros d Hd; simpl.
    - by rewrite app_nil_r.
    - simpl in Hd.
      assert (Hset : od_set d (category_at σ c) c = d ++ [(category_at σ c, c)]).
      { apply NoDup_app in Hd as (_ & Hd & _).
        assert (Hc : category_at σ c ∉ d.*1).
        { intros Hin. apply (Hd _ Hin). left. }
        clear -Hc. induction d as [|[k v] d IH]; simpl; [done|].
        rewrite decide_False.
        - f_equal. apply IH. intros ?. apply Hc. by right.
        - intros ->. apply Hc. left. }
      rewrite Hset, IH.
      + by rewrite <- app_assoc.
      + rewrite fmap_app. simpl. by rewrite <- app_assoc. }
  intros Hnd. by apply (H []).
Qed.

Lemma createCategories_distinct_names_witness :
  _createCategories [1; 2; 3; 5]%positive (snd (get_fill_data ∅))
  = (λ c, (category_at (snd (get_fill_data ∅)) c, c)) <$> [1; 2; 3; 5]%positive.
Proof.
  apply createCategories_distinct_names.
  apply (bool_decide_unpack _). vm_compute. reflexivity.
Defined.

(** ** The colours and the slices of the chart *)

Lemma colors_get_total key :
  0 ≤ key < 14 → ∃ c, colors_get colors key = Some c.
Proof.
  intros H.
  assert (Hk : key = 0 ∨ key = 1 ∨ key = 2 ∨ key = 3 ∨ key = 4 ∨ key = 5
               ∨ key = 6 ∨ key = 7 ∨ key = 8 ∨ key = 9 ∨ key = 10
               ∨ key = 11 ∨ key = 12 ∨ key = 13) by lia.
  repeat destruct Hk as [->|Hk]; try subst key; by eexists.
Qed.

Lemma get_color_returns i : ∃ c, _get_color i = Done c.
Proof.
  unfold _get_color. cbv zeta.
  change (Z.of_nat (length colors)) with 14.
  destruct (colors_get_total (i `mod` 14)) as [c Hc].
  - apply Z.mod_pos_bound. lia.
  - rewrite Hc. eauto.
Qed.

(** X15: [_get_color] never fails, for any int, negative ones included: it
    cycles through the fourteen colours, which are pairwise different. *)
Theorem get_color_cycles i :
  (∃ c, _get_color i = Done c)
  ∧ _get_color (i + 14) = _get_color i
  ∧ ∀ j, _get_color i = _get_color j ↔ i `mod` 14 = j `mod` 14.
Proof.
  split; [apply get_color_returns|]. split.
  - unfold _get_color. cbv zeta. change (Z.of_nat (length colors)) with 14.
    replace (i + 14) with (i + 1 * 14) by lia. by rewrite Z.mod_add.
  - intros j. split.
    + unfold _get_color. cbv zeta. change (Z.of_nat (length colors)) with 14.
      pose proof (Z.mod_pos_bound i 14 ltac:(lia)) as Hi.
      pose proof (Z.mod_pos_bound j 14 ltac:(lia)) as Hj.
      revert Hi Hj. generalize (i `mod` 14) (j `mod` 14). intros a b Ha Hb.
      assert (Hka : a = 0 ∨ a = 1 ∨ a = 2 ∨ a = 3 ∨ a = 4 ∨ a = 5
               ∨ a = 6 ∨ a = 7 ∨ a = 8 ∨ a = 9 ∨ a = 10
               ∨ a = 11 ∨ a = 12 ∨ a = 13) by lia.
      assert (Hkb : b = 0 ∨ b = 1 ∨ b = 2 ∨ b = 3 ∨ b = 4 ∨ b = 5
               ∨ b = 6 ∨ b = 7 ∨ b = 8 ∨ b = 9 ∨ b = 10
               ∨ b = 11 ∨ b = 12 ∨ b = 13) by lia.
      clear Ha Hb.
      repeat destruct Hka as [->|Hka]; try subst a;
        repeat destruct Hkb as [->|Hkb]; try subst b;
        vm_compute; congruence.
    + intros H. unfold _get_color. cbv zeta.
      change (Z.of_nat (length colors)) with 14. by rewrite H.
Qed.



Lemma paint_returns index data : ∃ slices, paint index data = Done slices.
Proof.
  revert index. induction data as [|[k v] data IH]; intros index; simpl;
    [by eexists|].
  destruct (get_color_returns index) as [c ->].
  destruct (IH (index + 1)) as [rest ->]. by eexists.
Qed.



(** X17: Drawing the chart never meets a missing key, neither in the dict nor
    among the colours: it fails only when the expense total of a category
    cannot be computed. *)
Theorem expense_chart_failure d (σ : heap) e :
  _make_expense_chart d σ = Failed e →
  ∃ k c x, k ∈ d.*1 ∧ k ≠ "Income" ∧ od_get d k = Some c
           ∧ (total ← fst (get_expense_total c σ); py_round2 total) = Raised x
           ∧ e = Uncaught x.
Proof.
  unfold _make_expense_chart.
  destruct (graph_data_of d d σ) as [data|e'] eqn:Hd.
  { destruct (paint_returns 0 data) as [slices ->]. done. }
  intros [= ->].
  assert (H : ∀ keys, (∀ k, k ∈ keys.*1 → k ∈ d.*1) →
    graph_data_of d keys σ = Failed e →
    ∃ k c x, k ∈ d.*1 ∧ k ≠ "Income" ∧ od_get d k = Some c
      ∧ (total ← fst (get_expense_total c σ); py_round2 total) = Raised x
      ∧ e = Uncaught x).
  { clear Hd. induction keys as [|[k l] keys IH]; intros Hsub;
      cbn [graph_data_of]; [done|].
    assert (Hk : k ∈ d.*1) by (apply Hsub; left).
    assert (Hsub' : ∀ k, k ∈ keys.*1 → k ∈ d.*1).
    { intros k' Hk'. apply Hsub. by right. }
    destruct (decide (k = "Income")) as [->|Hne]; [by apply IH|].
    destruct (od_get d k) as [c|] eqn:Hc.
    - destruct (total ← fst (get_expense_total c σ); py_round2 total)
        as [v|x] eqn:Hv.
      + destruct (graph_data_of d keys σ) as [rest|e'']; [done|].
        intros [= ->]. by apply IH.
      + intros [= <-]. by exists k, c, x.
    - exfalso. clear -Hk Hc. induction d as [|[k' v] d IHd]; simpl in *.
      + by apply elem_of_nil in Hk.
      + destruct (decide (k' = k)) as [->|Hne]; [done|].
        apply elem_of_cons in Hk as [->|Hk]; [done|]. by apply IHd. }
  by apply (H d).
Qed.

Lemma expense_chart_failure_witness :
  let d := [("Rent", 1%positive)] in
  let σ : heap :=
    {[1%positive := mkCategory "Rent"
                      [mkAction (VInt (- 2 ^ 1024)) "Lease" false]]} in
  ∃ k c x, k ∈ d.*1 ∧ k ≠ "Income" ∧ od_get d k = Some c
    ∧ (total ← fst (get_expense_total c σ); py_round2 total) = Raised x
    ∧ Uncaught OverflowError = Uncaught x.
Proof.
  intros d σ. apply (expense_chart_failure d σ (Uncaught OverflowError)).
  vm_compute. reflexivity.
Defined.

(** ** The total a window shows *)

Lemma od_get_elem d key c : od_get d key = Some c → (key, c) ∈ d.
Proof.
  induction d as [|[k v] d IH]; simpl; [done|].
  destruct (decide (k = key)) as [->|Hne].
  - intros [= ->]. left.
  - intros H. right. by apply IH.
Qed.

(** X18: After any sequence of ledger calls with no float amount, from empty
    wallets, the balance of a category of the dict is an int that is not
    below zero, and the total shown for it is that int followed by ".00";
    when the int has more than 4300 digits, [str] raises a ValueError
    instead.  Under a name that is not a key, the lookup raises a KeyError
    for that name. *)
Theorem category_total_of_int_ledger cs (σ0 : heap) d name :
  (∀ l, wallet_at σ0 l = []) →
  Forall (λ c, no_float (call_amount c) = true) cs →
  match od_get d name with
  | Some c =>
      ∃ z, 0 ≤ z
           ∧ fst (get_balance c (run_calls cs σ0)) = Returned (VInt z)
           ∧ _compute_category_total d name (run_calls cs σ0)
             = if z <? 10 ^ 4300 then Done (py_str_int z +:+ ".00")
               else Failed ValueError
  | None =>
      _compute_category_total d name (run_calls cs σ0)
      = Failed (KeyError (VStr name))
  end.
Proof.
  intros Hempty Hint. unfold _compute_category_total.
  destruct (od_get d name) as [c|]; [|done].
  assert (H : holds_everywhere int_balance (run_calls cs σ0)).
  { apply run_calls_preserve with (λ a, no_float a = true).
    - intros; by apply int_balance_credit.
    - intros; by eapply int_balance_debit.
    - done.
    - intros l'. rewrite Hempty. by exists 0. }
  destruct (H c) as (z & Hz & Hpos). exists z.
  rewrite get_balance_unfold. cbn [fst]. rewrite Hz.
  split; [done|]. split; [done|].
  unfold str_of_int, default_max_str_digits. rewrite Z.abs_eq by done.
  by destruct (z <? 10 ^ 4300).
Qed.

Lemma category_total_of_int_ledger_witness :
  ∃ z, 0 ≤ z
    ∧ fst (get_balance 2%positive
             (run_calls [AddRevenue 2%positive (VInt 50) "Pay" false;
                         AddExpense 2%positive (VInt 20) "Lunch" false]
                        ∅)) = Returned (VInt z)
    ∧ _compute_category_total [("Food", 2%positive)] "Food"
        (run_calls [AddRevenue 2%positive (VInt 50) "Pay" false;
                    AddExpense 2%positive (VInt 20) "Lunch" false] ∅)
      = if z <? 10 ^ 4300 then Done (py_str_int z +:+ ".00")
        else Failed ValueError.
Proof.
  apply (category_total_of_int_ledger
           [AddRevenue 2%positive (VInt 50) "Pay" false;
            AddExpense 2%positive (VInt 20) "Lunch" false]
           ∅ [("Food", 2%positive)] "Food").
  - intros l. reflexivity.
  - repeat constructor.
Defined.

(** The total shown for the seed data of the Food category, and for a
    deposit of [10 ** 4300], which [add_revenue] accepts. *)
Example category_total_examples :
  _compute_category_total [("Food", 2%positive)] "Food"
    (run_calls [AddRevenue 2%positive (VInt 50) "Pay" false;
                AddExpense 2%positive (VInt 20) "Lunch" false] ∅)
  = Done "30.00"
  ∧ _compute_category_total [("Food", 2%positive)] "Food"
      (run_calls [AddRevenue 2%positive (VInt (10 ^ 4300)) "Pay" false] ∅)
    = Failed ValueError.
Proof. split; vm_compute; reflexivity. Qed.

Lemma round_half_even_shift_near (n k : Z) :
  0 ≤ n → 0 ≤ k →
  0 ≤ round_half_even_shift n k
  ∧ 2 * Z.abs (round_half_even_shift n k * 2 ^ k - n) ≤ 2 ^ k.
Proof.
  intros Hn Hk. unfold round_half_even_shift. cbv zeta.
  assert (Hd : 0 < 2 ^ k) by (apply Z.pow_pos_nonneg; lia).
  pose proof (Z.div_mod n (2 ^ k) ltac:(lia)) as Hdm.
  pose proof (Z.mod_pos_bound n (2 ^ k) Hd) as Hr.
  pose proof (Z.div_pos n (2 ^ k) Hn Hd) as Hq.
  remember (2 ^ k) as d eqn:Ed. remember (n / d) as q eqn:Eq.
  remember (n mod d) as r eqn:Er. clear Ed Eq Er.
  destruct (Z.compare_spec (2 * r) d) as [H|H|H];
    [destruct (Z.even q)| |]; (split; [lia|]); rewrite Hdm.
  all: try (replace (q * d - (d * q + r)) with (- r) by ring).
  all: try (replace ((q + 1) * d - (d * q + r)) with (d - r) by ring).
  all: lia.
Qed.

(** X19: The text shown for a float balance, whatever the float.  For a
    finite balance it is that balance to the nearest cent: a sign, the
    whole part, a point and two digits of cents, the number read off the
    text being at most half a cent away from the exact value of the double
    (and equal to it when the double is a whole number); for a zero it is
    "0.00", or "-0.00" for the negative zero.  For an infinite balance it is
    "inf" or "-inf", and for a NaN "nan". *)
Theorem category_total_to_the_cent d name c f (σ : heap) :
  od_get d name = Some c →
  fst (get_balance c σ) = Returned (VFloat f) →
  match f with
  | S754_nan => _compute_category_total d name σ = Done "nan"
  | S754_infinity s =>
      _compute_category_total d name σ = Done (if s then "-inf" else "inf")
  | S754_zero s =>
      _compute_category_total d name σ = Done (if s then "-0.00" else "0.00")
  | S754_finite s m e =>
      ∃ q r,
        _compute_category_total d name σ
        = Done ((if s then "-" else EmptyString)
                +:+ py_str_int q +:+ "." +:+ two_digits r)
        ∧ 0 ≤ q ∧ 0 ≤ r < 100
        ∧ (0 ≤ e → 100 * q + r = Zpos m * 2 ^ e * 100)
        ∧ (e < 0 →
           2 * Z.abs ((100 * q + r) * 2 ^ (- e) - Zpos m * 100)
           ≤ 2 ^ (- e))
  end.
Proof.
  intros Hc Hb. unfold _compute_category_total. rewrite Hc, Hb.
  destruct f as [s|s| |s m e]; [by destruct s|done|done|].
  exists (cents (S754_finite s m e) / 100),
         (cents (S754_finite s m e) `mod` 100).
  assert (Hcents : 0 ≤ cents (S754_finite s m e)).
  { unfold cents. destruct (0 <=? e) eqn:He.
    - apply Z.leb_le in He.
      assert (0 < 2 ^ e) by (apply Z.pow_pos_nonneg; lia). nia.
    - apply Z.leb_gt in He.
      apply (round_half_even_shift_near (Zpos m * 100) (- e)); lia. }
  split; [done|]. split; [by apply Z.div_pos|].
  split; [by apply Z.mod_pos_bound|].
  rewrite <- (Z.div_mod (cents (S754_finite s m e)) 100) by lia.
  unfold cents. split; intros He.
  - by rewrite (proj2 (Z.leb_le 0 e) He).
  - rewrite (proj2 (Z.leb_gt 0 e) He).
    apply (round_half_even_shift_near (Zpos m * 100) (- e)); lia.
Qed.

Lemma category_total_to_the_cent_witness :
  ∃ q r,
    _compute_category_total [("Grocery", 5%positive)] "Grocery"
      (snd (get_fill_data ∅))
    = Done (EmptyString +:+ py_str_int q +:+ "." +:+ two_digits r)
    ∧ 0 ≤ q ∧ 0 ≤ r < 100
    ∧ (0 ≤ -49 → 100 * q + r = 5139733074736579 * 2 ^ (-49) * 100)
    ∧ (-49 < 0 →
       2 * Z.abs ((100 * q + r) * 2 ^ (- -49) - 5139733074736579 * 100)
       ≤ 2 ^ (- -49)).
Proof.
  apply (category_total_to_the_cent [("Grocery", 5%positive)] "Grocery"
           5%positive (S754_finite false 5139733074736579 (-49))
           (snd (get_fill_data ∅))).
  - reflexivity.
  - vm_compute. reflexivity.
Defined.

(** The totals shown for the Grocery category of the seed data, and for a
    category emptied by a withdrawal of what was deposited, 12.5. *)
Example category_total_float_examples :
  _compute_category_total [("Grocery", 5%positive)] "Grocery"
    (snd (get_fill_data ∅)) = Done "9.13"
  ∧ fst (get_balance 1%positive
           (run_calls [AddRevenue 1%positive (VFloat (decimal 125 1)) "Pay"
                         false;
                       AddExpense 1%positive (VFloat (decimal 125 1)) "Rent"
                         false] ∅))
    = Returned (VFloat (S754_zero false))
  ∧ _compute_category_total [("Rent", 1%positive)] "Rent"
      (run_calls [AddRevenue 1%positive (VFloat (decimal 125 1)) "Pay" false;
                  AddExpense 1%positive (VFloat (decimal 125 1)) "Rent"
                    false] ∅)
    = Done "0.00".
Proof. repeat split; vm_compute; reflexivity. Qed.

(** ** Renaming a category *)

(** X20: Assigning a string to [category] renames that category and nothing
    else: every wallet, balance and expense total, and the name of every
    other category, stay as they were.  Assigning anything else raises the
    Exception of the setter and leaves the store untouched. *)
Theorem set_category_renames_only self v (σ : heap) :
  match v with
  | VStr name =>
      ∃ σ', set_category self v σ = (Returned tt, σ')
            ∧ category_at σ' self = name
            ∧ ∀ l, wallet_at σ' l = wallet_at σ l
                   ∧ fst (get_balance l σ') = fst (get_balance l σ)
                   ∧ fst (get_expense_total l σ')
                     = fst (get_expense_total l σ)
                   ∧ (l ≠ self → category_at σ' l = category_at σ l)
  | _ => set_category self v σ = (Raised name_error, σ)
  end.
Proof.
  destruct v as [|b|z|f|name]; try done.
  eexists. split; [done|].
  assert (Hw : ∀ l, wallet_at (<[self := mkCategory name (wallet_at σ self)]> σ) l
                    = wallet_at σ l).
  { intros l. unfold wallet_at. destruct (decide (self = l)) as [<-|Hne].
    - by rewrite lookup_total_insert_eq.
    - by rewrite lookup_total_insert_ne. }
  split.
  - unfold category_at. by rewrite lookup_total_insert_eq.
  - intros l. split; [apply Hw|].
    rewrite !get_balance_unfold, !get_expense_total_unfold. cbn [fst].
    rewrite Hw. repeat split.
    intros Hne. unfold category_at. by rewrite lookup_total_insert_ne.
Qed.

(** ** The amount fields *)

Lemma int_of_digits_nonneg s acc : 0 ≤ acc → 0 ≤ int_of_digits acc s.
Proof.
  revert acc. induction s as [|c s IH]; intros acc Hacc; simpl; [done|].
  apply IH. lia.
Qed.

Lemma nonneg_float_not_below_zero f :
  nonneg_float f → py_lt (VFloat f) (VInt 0) = Returned false.
Proof.
  intros Hf. erewrite py_lt_num by reflexivity. f_equal.
  pose proof (good_num_ge_zero (NFloat f) Hf) as H.
  unfold num_geb in H. unfold num_ltb.
  by destruct (num_compare (NFloat f) (NInt 0)) as [[]|].
Qed.

Lemma all_digits_Forall text :
  Forall (λ c, is_digit c = true) (list_ascii_of_string text) →
  all_digits text = true.
Proof.
  induction text as [|c text IH]; simpl; [done|].
  intros [Hc Ht]%Forall_cons. by rewrite Hc, IH.
Qed.

(** X21: A text that is not empty and holds only the ASCII digits 0 to 9
    enables the submit button of an amount field, is converted to a float
    that is not below zero and is no NaN, and [add_revenue] accepts that
    float whatever the category: it returns and appends the entry.  (The
    digits of other scripts, which [str.isdigit] accepts too, are not
    covered.) *)
Theorem amount_field_accepts text :
  text ≠ EmptyString →
  Forall (λ c, is_digit c = true) (list_ascii_of_string text) →
  submit_enabled text = true
  ∧ ∃ f, _convert_float text = Some (VFloat f)
         ∧ nonneg_float f
         ∧ ∀ self d t (σ : heap),
             add_revenue self (VFloat f) d t σ
             = (Returned tt, append_to σ self (mkAction (VFloat f) d t)).
Proof.
  intros Hne Hdigits.
  assert (Hd : isdigit text = true).
  { destruct text; [done|]. by apply all_digits_Forall. }
  split.
  { unfold submit_enabled. rewrite Hd, andb_true_r.
    apply bool_decide_eq_true. destruct text; [done|]. simpl. lia. }
  unfold _convert_float, py_float_of_str. rewrite Hd. eexists.
  split; [done|].
  assert (Hf : nonneg_float
                 (float_round2
                    (binary_normalize prec emax (int_of_digits 0 text) 0
                       false))).
  { apply float_round2_nonneg, binary_normalize_nonneg.
    by apply int_of_digits_nonneg. }
  split; [done|]. intros self d t σ.
  by rewrite add_revenue_unfold, nonneg_float_not_below_zero.
Qed.

Lemma amount_field_accepts_witness :
  submit_enabled "0123" = true
  ∧ ∃ f, _convert_float "0123" = Some (VFloat f)
         ∧ nonneg_float f
         ∧ ∀ self d t (σ : heap),
             add_revenue self (VFloat f) d t σ
             = (Returned tt, append_to σ self (mkAction (VFloat f) d t)).
Proof.
  apply (amount_field_accepts "0123"); [discriminate|].
  simpl. repeat (constructor; [reflexivity|]). constructor.
Defined.

(** X22: An amount with anything but the digits 0 to 9 in it (a decimal point,
    a sign, a blank, a letter) never enables the submit button: no cents
    can be entered. *)
Theorem amount_field_digits_only text c :
  c ∈ list_ascii_of_string text →
  (N_of_ascii c < 128)%N → is_digit c = false →
  submit_enabled text = false.
Proof.
  intros Hin _ Hc. unfold submit_enabled. apply andb_false_intro2.
  assert (H : all_digits text = false).
  { induction text as [|c' text IH]; simpl in *.
    - by apply elem_of_nil in Hin.
    - apply elem_of_cons in Hin as [<-|Hin].
      + by rewrite Hc.
      + rewrite IH by done. apply andb_false_r. }
  by destruct text.
Qed.

Lemma amount_field_digits_only_witness : submit_enabled "12.50" = false.
Proof.
  apply (amount_field_digits_only "12.50" "."); [|reflexivity|reflexivity].
  simpl. do 2 right. left.
Defined.

(** ** The printout of a category *)

Lemma length_append s1 s2 :
  String.length (s1 +:+ s2) = (String.length s1 + String.length s2)%nat.
Proof. induction s1 as [|c s1 IH]; simpl; [done|]. by rewrite IH. Qed.

Lemma append_assoc s1 s2 s3 : (s1 +:+ s2) +:+ s3 = s1 +:+ s2 +:+ s3.
Proof.
  induction s1 as [|c s1 IH]; [done|].
  change (String c ((s1 +:+ s2) +:+ s3) = String c (s1 +:+ s2 +:+ s3)).
  by rewrite IH.
Qed.

Lemma append_empty_r s : s +:+ EmptyString = s.
Proof.
  induction s as [|c s IH]; [done|].
  change (String c (s +:+ EmptyString) = String c s). by rewrite IH.
Qed.

Lemma length_repeat_char c n : String.length (repeat_char c n) = n.
Proof. induction n as [|n IH]; simpl; [done|]. by rewrite IH. Qed.

Lemma length_slice_to n s :
  String.length (slice_to n s) = Nat.min n (String.length s).
Proof.
  unfold slice_to. revert s. induction n as [|n IH]; intros [|c s]; simpl;
    try done. by rewrite IH.
Qed.

Lemma length_ljust width s :
  String.length (ljust width s) = Nat.max width (String.length s).
Proof. unfold ljust. rewrite length_append, length_repeat_char. lia. Qed.

Lemma length_rjust width s :
  String.length (rjust width s) = Nat.max width (String.length s).
Proof. unfold rjust. rewrite length_append, length_repeat_char. lia. Qed.

Lemma length_center width fill s :
  String.length (center width fill s) = Nat.max width (String.length s).
Proof.
  unfold center. cbv zeta.
  rewrite !length_append, !length_repeat_char.
  set (marg := (width - String.length s)%nat).
  assert (H : (marg / 2 + Nat.land (Nat.land marg width) 1 ≤ marg)%nat).
  { destruct marg as [|marg]; [done|].
    pose proof (Nat.div_mod_eq (S marg) 2) as Hdm.
    assert (Nat.land (Nat.land (S marg) width) 1 ≤ 1)%nat.
    { rewrite Nat.land_ones with (n := 1%nat).
      pose proof (Nat.mod_upper_bound (Nat.land (S marg) width) (2 ^ 1)).
      simpl in *. lia. }
    destruct (decide (S marg / 2 = 0)%nat) as [H0|H0]; [|lia].
    destruct marg as [|marg]; [|pose proof (Nat.div_str_pos (S (S marg)) 2);
                                 lia].
    simpl. destruct (Nat.land 1 width); simpl; lia. }
  lia.
Qed.

Lemma str_line_layout float_repr a line :
  str_line float_repr a = Returned line →
  ∃ desc amt, line = desc +:+ amt +:+ newline
    ∧ String.length desc = 23%nat ∧ (7 ≤ String.length amt)%nat.
Proof.
  unfold str_line. cbv zeta.
  destruct (py_round2 (amount a)) as [v|e]; [|done].
  cbn [mbind result_mbind result_bind]. intros [= <-].
  eexists _, _. split; [done|]. split.
  - rewrite length_ljust, length_slice_to. lia.
  - rewrite length_rjust. lia.
Qed.

Lemma str_lines_layout float_repr w acc body :
  for_each (λ body action,
              line ← str_line float_repr action; Returned (body +:+ line))
           w acc = Returned body →
  ∃ lines, body = acc +:+ foldr String.append EmptyString lines
    ∧ Forall2 (λ a line, str_line float_repr a = Returned line) w lines.
Proof.
  revert acc. induction w as [|a w IH]; intros acc; simpl.
  - intros [= <-]. exists []. split; [|constructor]. simpl.
    by rewrite append_empty_r.
  - destruct (str_line float_repr a) as [line|e] eqn:Hline; [|done].
    cbn [mbind result_mbind result_bind]. intros H.
    destruct (IH _ H) as (lines & -> & Hlines).
    exists (line :: lines). split; [|by constructor].
    simpl. by rewrite append_assoc.
Qed.

(** X23: Printing a category leaves the store as it is.  The text is a header
    of 30 characters (longer only when the name is), the name padded with
    stars; then one line for each entry of the wallet, in its order, made
    of a description column exactly 23 wide and an amount column at least
    7 wide; then the total, the balance. *)
Theorem printout_layout float_repr self (σ σ' : heap) text :
  __str__ float_repr self σ = (Returned text, σ') →
  σ' = σ
  ∧ ∃ header lines balance,
      text = header +:+ newline +:+ foldr String.append EmptyString lines
             +:+ "Total: " +:+ py_str float_repr balance
      ∧ String.length header = Nat.max 30 (String.length (category_at σ self))
      ∧ fst (get_balance self σ) = Returned balance
      ∧ Forall2 (λ a line,
                   str_line float_repr a = Returned line
                   ∧ ∃ desc amt, line = desc +:+ amt +:+ newline
                       ∧ String.length desc = 23%nat
                       ∧ (7 ≤ String.length amt)%nat)
                (wallet_at σ self) lines.
Proof.
  unfold __str__, category, wallet, lift.
  unfold mbind, M_bind, bind, mret, M_ret, ret. cbv zeta.
  destruct (for_each _ (wallet_at σ self) EmptyString) as [body|e] eqn:Hbody;
    [|done].
  change (get_balance self σ) with (balance_of (wallet_at σ self), σ).
  cbv beta iota.
  destruct (balance_of (wallet_at σ self)) as [balance|e] eqn:Hbal; [|done].
  intros [= <- <-]. split; [done|].
  destruct (str_lines_layout _ _ _ _ Hbody) as (lines & -> & Hlines).
  exists (center 30 "*" (category_at σ self)), lines, balance.
  split; [by rewrite append_assoc|]. split; [apply length_center|].
  split; [done|].
  eapply Forall2_impl; [exact Hlines|]. intros a line Hl. split; [done|].
  by apply str_line_layout with float_repr a.
Qed.

Lemma printout_layout_witness :
  let float_repr : spec_float → string := λ _, "nan" in
  let σ : heap :=
    {[1%positive := mkCategory "Food" [mkAction (VInt 50) "Pay" false]]} in
  let text := "*************Food*************" +:+ newline
              +:+ "Pay                      50.00" +:+ newline
              +:+ "Total: 50" in
  σ = σ
  ∧ ∃ header lines balance,
      text = header +:+ newline +:+ foldr String.append EmptyString lines
             +:+ "Total: " +:+ py_str float_repr balance
      ∧ String.length header
        = Nat.max 30 (String.length (category_at σ 1%positive))
      ∧ fst (get_balance 1%positive σ) = Returned balance
      ∧ Forall2 (λ a line,
                   str_line float_repr a = Returned line
                   ∧ ∃ desc amt, line = desc +:+ amt +:+ newline
                       ∧ String.length desc = 23%nat
                       ∧ (7 ≤ String.length amt)%nat)
                (wallet_at σ 1%positive) lines.
Proof.
  intros float_repr σ text.
  apply (printout_layout float_repr 1%positive σ σ text).
  vm_compute. reflexivity.
Defined.
